(** * Celestial Explorer: the celestial state model and its transforms

    A shallow embedding of the state-handling code of
    [src/App.tsx], [src/components/UniverseView.tsx] and
    [src/components/HomeView.tsx] (the [CelestialState] of [types.ts]).

    JavaScript numbers are IEEE binary64.  Two models are kept side by side:

    - the main one reads a [number] as a real number (module [JS]: [%],
      [Math.floor], [Math.atan2] on [R]); the trigonometric code can only be
      stated there;
    - module [F64] re-runs the purely arithmetic code (the clock tick, the
      date resynchronisation, the phase normalisation) on the kernel's
      binary64 floats, where statements about exact bit patterns live. *)

From Stdlib Require Import ZArith Reals Lra Lia Psatz List Bool Ascii String.
From Stdlib Require Import PrimFloat FloatOps SpecFloat Uint63.
From Stdlib Require Import DecimalString.
Import ListNotations.

Local Open Scope R_scope.
Set Warnings "-inexact-float".

(** ** JavaScript arithmetic on real numbers *)

Module JS.

(** Truncation toward zero, the integer quotient behind [%]. *)
Definition trunc (x : R) : Z :=
  if Rle_dec 0 x then Zfloor x else Zceil x.

(** [x % y]: the remainder of the truncated division; it has the sign of
    the dividend.  (Every divisor in the program is a non-zero literal.) *)
Definition rem (x y : R) : R := x - y * IZR (trunc (x / y)).

(** The comparison operators [<], [<=], [>], [>=] as boolean tests. *)
Definition ltb (x y : R) : bool := if Rlt_dec x y then true else false.
Definition leb (x y : R) : bool := if Rle_dec x y then true else false.
Definition gtb (x y : R) : bool := ltb y x.
Definition geb (x y : R) : bool := leb y x.

(** [Math.floor]. *)
Definition floor (x : R) : R := IZR (Zfloor x).

(** [Math.atan2(y, x)], with values in (-PI, PI].  The reals have one
    zero, so [atan2 0 x] for [x < 0] is [PI]. *)
Definition atan2 (y x : R) : R :=
  if Rlt_dec 0 x then atan (y / x)
  else if Rlt_dec x 0 then
    (if Rle_dec 0 y then atan (y / x) + PI else atan (y / x) - PI)
  else if Rlt_dec 0 y then PI / 2
  else if Rlt_dec y 0 then - (PI / 2)
  else 0.

End JS.

(** ** The data model ([types.ts]) *)

(** A [Date] is its time value in milliseconds, [None] being the Invalid
    Date (time value NaN).  Time values are counted from the host's local
    midnight of 1 January 2025, the value of [new Date(2025, 0, 1)], so that
    the model does not depend on the host's time zone. *)
Definition Date := option Z.

Definition msPerDay : Z := 1000 * 60 * 60 * 24.

(** [new Date(2025, 0, 1)]. *)
Definition referenceDate : Date := Some 0%Z.

(** [d.setDate(d.getDate() + 1)]: the same wall-clock time on the next
    calendar day (in a time zone without clock changes, 24 hours later). *)
Definition Date_nextDay (d : Date) : Date :=
  option_map (fun t => (t + msPerDay)%Z) d.

Record CelestialState := mkState {
  time : R;                  (* 0.0 to 23.9 *)
  date : Date;               (* current date *)
  earthOrbitProgress : R;    (* 0.0 to 1.0 *)
  moonOrbitProgress : R      (* 0.0 to 1.0, relative to the Earth-Sun line *)
}.

(** [Partial<CelestialState>], the argument of [onChange]. *)
Record PartialState := mkPartial {
  p_time : option R;
  p_date : option Date;
  p_earthOrbitProgress : option R;
  p_moonOrbitProgress : option R
}.

Definition orElse {A} (o : option A) (d : A) : A :=
  match o with Some a => a | None => d end.

(** [{...prev, ...newState}] *)
Definition merge (prev : CelestialState) (newState : PartialState)
  : CelestialState :=
  {| time := orElse (p_time newState) (time prev);
     date := orElse (p_date newState) (date prev);
     earthOrbitProgress :=
       orElse (p_earthOrbitProgress newState) (earthOrbitProgress prev);
     moonOrbitProgress :=
       orElse (p_moonOrbitProgress newState) (moonOrbitProgress prev) |}.

(** The invariant of the data model: every field in its canonical range. *)
Definition canonical (s : CelestialState) : Prop :=
  0 <= time s < 24 /\
  0 <= earthOrbitProgress s < 1 /\
  0 <= moonOrbitProgress s < 1.

(** The names the two phase tables return.  [Unlabelled] stands for the
    string after the last [if] of each table: the empty string in
    [HomeView.tsx], a "phase is changing" message in [App.tsx]. *)
Inductive PhaseName :=
| NewMoon | WaxingCrescent | FirstQuarter | WaxingGibbous
| FullMoon | WaningGibbous | LastQuarter | WaningCrescent
| Unlabelled.

(** ** [src/App.tsx] *)

Module App.

(** The initial value of [useState<CelestialState>]. *)
Definition initialState : CelestialState :=
  {| time := 18;
     date := referenceDate;
     earthOrbitProgress := 0;
     moonOrbitProgress := 0 |}.

Definition timeIncrement : R := 0.02.   (* hours per 50 ms *)

(** The state updater run by the [setInterval] timer every 50 ms. *)
Definition tick (prev : CelestialState) : CelestialState :=
  let newTime := time prev + timeIncrement in
  let newDate :=
    if JS.geb newTime 24 then Date_nextDay (date prev) else date prev in
  let earthIncrement := timeIncrement / (24 * 365) in
  let moonIncrement := timeIncrement / (24 * 28) in
  {| time := JS.rem newTime 24;
     date := newDate;
     earthOrbitProgress :=
       JS.rem (earthOrbitProgress prev + earthIncrement) 1;
     moonOrbitProgress :=
       JS.rem (moonOrbitProgress prev + moonIncrement) 1 |}.

(** *** The time editor *)

Definition isDigit (c : ascii) : bool :=
  let n := N_of_ascii c in ((48 <=? n) && (n <=? 57))%N.

Definition isColon (c : ascii) : bool := (N_of_ascii c =? 58)%N.

(** [value.replace(/[^0-9:]/g, '')] *)
Fixpoint sanitize (value : string) : string :=
  match value with
  | EmptyString => EmptyString
  | String c rest =>
      if isDigit c || isColon c then String c (sanitize rest)
      else sanitize rest
  end.

(** [value.split(':')]: always at least one field. *)
Fixpoint split (value : string) : list string :=
  match value with
  | EmptyString => [EmptyString]
  | String c rest =>
      if isColon c then EmptyString :: split rest
      else match split rest with
           | field :: fields => String c field :: fields
           | [] => [String c EmptyString]
           end
  end.

(** [Number(field)] on a field of decimal digits ([Number('')] is 0);
    [None] is NaN. *)
Fixpoint digits (acc : Z) (field : string) : option Z :=
  match field with
  | EmptyString => Some acc
  | String c rest =>
      if isDigit c
      then digits (10 * acc + Z.of_N (N_of_ascii c - 48)) rest
      else None
  end.

Definition Number (field : string) : option Z := digits 0 field.

(** [const [hours, minutes] = value.split(':').map(Number)]; a missing
    element is [undefined], which [isNaN] treats like NaN. *)
Definition parseTime (value : string) : option Z * option Z :=
  let fields := map Number (split (sanitize value)) in
  (match nth_error fields 0 with Some n => n | None => None end,
   match nth_error fields 1 with Some n => n | None => None end).

Definition handleTimeChange (value : string) (prev : CelestialState)
  : CelestialState :=
  match parseTime value with
  | (Some hours, Some minutes) =>
      if ((0 <=? hours) && (hours <? 24) &&
          (0 <=? minutes) && (minutes <? 60))%Z
      then
        let newTime := IZR hours + IZR minutes / 60 in
        {| time := newTime;
           date := date prev;
           earthOrbitProgress := earthOrbitProgress prev;
           moonOrbitProgress := moonOrbitProgress prev |}
      else prev
  | _ => prev
  end.

(** *** The date editor: [newDate] is [new Date(e.target.value)]. *)

Definition daysDiff (newTime refTime : Z) : R :=
  JS.floor (IZR (newTime - refTime) / IZR msPerDay).

Definition wrapNegative (p : R) : R :=
  if JS.ltb p 0 then p + 1 else p.

Definition handleDateChange (newDate : Date) (prev : CelestialState)
  : CelestialState :=
  match newDate, referenceDate with
  | Some t, Some t0 =>
      let d := daysDiff t t0 in
      let newEarthProgress := JS.rem (d / 365) 1 in
      let newMoonProgress := JS.rem (d / 28) 1 in
      {| time := time prev;
         date := newDate;
         earthOrbitProgress := wrapNegative newEarthProgress;
         moonOrbitProgress := wrapNegative newMoonProgress |}
  | _, _ => prev
  end.

(** *** The phase label of the header *)

Definition normalize (progress : R) : R :=
  JS.rem (JS.rem progress 1 + 1) 1.

Definition moonPhaseName (s : CelestialState) : PhaseName :=
  let p := normalize (moonOrbitProgress s) in
  if JS.ltb p 0.03 || JS.gtb p 0.97 then NewMoon
  else if JS.geb p 0.03 && JS.ltb p 0.22 then WaningCrescent
  else if JS.geb p 0.22 && JS.ltb p 0.28 then LastQuarter
  else if JS.geb p 0.28 && JS.ltb p 0.47 then WaningGibbous
  else if JS.geb p 0.47 && JS.ltb p 0.53 then FullMoon
  else if JS.geb p 0.53 && JS.ltb p 0.72 then WaxingGibbous
  else if JS.geb p 0.72 && JS.ltb p 0.78 then FirstQuarter
  else if JS.geb p 0.78 && JS.ltb p 0.97 then WaxingCrescent
  else Unlabelled.

(** *** The 2D overlay (mini-map): CSS rotation angles in degrees *)

Definition earthX (s : CelestialState) : R :=
  cos (earthOrbitProgress s * PI * 2).
Definition earthZ (s : CelestialState) : R :=
  - sin (earthOrbitProgress s * PI * 2).

Definition earthAngle (s : CelestialState) : R :=
  JS.atan2 (earthZ s) (earthX s) * 180 / PI.

Definition angleToSun (s : CelestialState) : R :=
  JS.atan2 (- earthZ s) (- earthX s).
Definition moonAngle3D (s : CelestialState) : R :=
  angleToSun s + moonOrbitProgress s * PI * 2.
Definition moonAngleDeg (s : CelestialState) : R :=
  - moonAngle3D s * 180 / PI.

(** [onChange={(newState) => setCelestialState(prev => ({...prev, ...newState}))}] *)
Definition onChange (newState : PartialState) (prev : CelestialState)
  : CelestialState := merge prev newState.

(** [n] runs of the timer callback. *)
Definition ticks (n : nat) (s : CelestialState) : CelestialState :=
  Nat.iter n tick s.

(** *** The clock display *)

(** [n.toString()] for a whole number [n] (below 1e21 in size, where
    JavaScript switches to the exponent notation). *)
Definition toString (n : Z) : string := NilEmpty.string_of_int (Z.to_int n).

(** [s.padStart(targetLength, '0')] *)
Fixpoint zeros (n : nat) : string :=
  match n with
  | O => EmptyString
  | S n' => String "0" (zeros n')
  end.
Definition padStart (targetLength : nat) (s : string) : string :=
  (zeros (targetLength - String.length s) ++ s)%string.

(** [formatTimeForInput], the value shown in the time editor;
    [formatTime] has the same body. *)
Definition formatTimeForInput (time : R) : string :=
  let h := Zfloor time in
  let m := Zfloor (JS.rem time 1 * 60) in
  (padStart 2 (toString h) ++ ":" ++ padStart 2 (toString m))%string.

Definition formatTime (time : R) : string := formatTimeForInput time.

End App.

(** ** [src/components/HomeView.tsx] *)

Module HomeView.

Definition normalize (progress : R) : R :=
  JS.rem (JS.rem progress 1 + 1) 1.

(** [moonPhaseText] of [SkyContent]: the observer's phase label. *)
Definition moonPhaseText (s : CelestialState) : PhaseName :=
  let prog := normalize (moonOrbitProgress s) in
  if JS.ltb prog 0.03 || JS.gtb prog 0.97 then NewMoon
  else if JS.geb prog 0.03 && JS.ltb prog 0.22 then WaxingCrescent
  else if JS.geb prog 0.22 && JS.ltb prog 0.28 then FirstQuarter
  else if JS.geb prog 0.28 && JS.ltb prog 0.47 then WaxingGibbous
  else if JS.geb prog 0.47 && JS.ltb prog 0.53 then FullMoon
  else if JS.geb prog 0.53 && JS.ltb prog 0.72 then WaningGibbous
  else if JS.geb prog 0.72 && JS.ltb prog 0.78 then LastQuarter
  else if JS.geb prog 0.78 && JS.ltb prog 0.97 then WaningCrescent
  else Unlabelled.

End HomeView.

(** ** [src/components/UniverseView.tsx] *)

(** [THREE.Vector3] *)
Record Vector3 := mkVector3 { x : R; y : R; z : R }.

Inductive DragTarget := earth | moon.

(** What a run of [handleDragUpdate] did: it returned, after calling
    [onChange] with a patch or without calling it, or its [while] loops were
    still running when the fuel ran out. *)
Inductive Outcome :=
| Returned (call : option PartialState)
| OutOfFuel.

Module UniverseView.

(** The body of the [EarthSystem] component. *)
Module EarthSystem.
Section Props.
Variable state : CelestialState.
Variables orbitDist moonDist : R.
Variable isMobile : bool.

Definition earthX : R :=
  cos (earthOrbitProgress state * PI * 2) * orbitDist.
Definition earthZ : R :=
  (- sin (earthOrbitProgress state * PI * 2)) * orbitDist.
Definition angleToSun : R := JS.atan2 (- earthZ) (- earthX).
Definition moonAngle : R :=
  angleToSun + moonOrbitProgress state * PI * 2.


(** [<group position={[earthX, 0, earthZ]}>] *)
Definition groupPosition : Vector3 := mkVector3 earthX 0 earthZ.

(** The [position] of the Moon mesh inside the group. *)
Definition moonLocal : Vector3 :=
  mkVector3 (cos moonAngle * moonDist) 0 ((- sin moonAngle) * moonDist).


(** World position of a child of the group (the group is neither
    rotated nor scaled). *)
Definition toWorld (local : Vector3) : Vector3 :=
  mkVector3 (x groupPosition + x local)
            (y groupPosition + y local)
            (z groupPosition + z local).

Definition moonWorld : Vector3 := toWorld moonLocal.

(** The Moon's orbit line: [new Array(65).fill(0).map((_, i) => ...)]. *)
Definition moonOrbitLine : list Vector3 :=
  map (fun i : nat =>
         mkVector3 (cos (INR i / 64 * PI * 2) * moonDist)
                   0
                   (sin (INR i / 64 * PI * 2) * moonDist))
      (seq 0 65).
End Props.
End EarthSystem.

(** The body of the [Scene] component. *)
Module Scene.

Definition EARTH_DIST (isMobile : bool) : R :=
  if isMobile then 450 else 350.
Definition MOON_DIST (isMobile : bool) : R :=
  if isMobile then 150 else 110.

(** [while (progress < 0) progress += 1] *)
Fixpoint whileNegative (fuel : nat) (progress : R) : option R :=
  if JS.ltb progress 0 then
    match fuel with
    | O => None
    | S fuel' => whileNegative fuel' (progress + 1)
    end
  else Some progress.

(** [while (progress >= 1) progress -= 1] *)
Fixpoint whileAtLeastOne (fuel : nat) (progress : R) : option R :=
  if JS.geb progress 1 then
    match fuel with
    | O => None
    | S fuel' => whileAtLeastOne fuel' (progress - 1)
    end
  else Some progress.

Definition earthPatch (progress : R) : PartialState :=
  mkPartial None None (Some progress) None.
Definition moonPatch (progress : R) : PartialState :=
  mkPartial None None None (Some progress).

(** Earth's position as the Moon branch of [handleDragUpdate]
    recomputes it ([earthX], [earthZ] there). *)
Definition earthX (state : CelestialState) (isMobile : bool) : R :=
  cos (earthOrbitProgress state * PI * 2) * EARTH_DIST isMobile.
Definition earthZ (state : CelestialState) (isMobile : bool) : R :=
  sin (earthOrbitProgress state * PI * 2) * EARTH_DIST isMobile.

Definition handleDragUpdate (fuel : nat)
    (dragTarget : option DragTarget) (miniMap isMobile : bool)
    (state : CelestialState) (point : Vector3) : Outcome :=
  match dragTarget with
  | None => Returned None
  | Some target =>
      if miniMap then Returned None
      else match target with
      | earth =>
          let angle := JS.atan2 (z point) (x point) in
          let progress := angle / (PI * 2) in
          let progress :=
            if JS.ltb progress 0 then progress + 1 else progress in
          Returned (Some (earthPatch progress))
      | moon =>
          let relX := x point - earthX state isMobile in
          let relZ := z point - earthZ state isMobile in
          let relAngle := JS.atan2 relZ relX in
          let angleToSun :=
            JS.atan2 (- earthZ state isMobile) (- earthX state isMobile) in
          let progress := (relAngle - angleToSun) / (PI * 2) in
          match whileNegative fuel progress with
          | None => OutOfFuel
          | Some progress =>
              match whileAtLeastOne fuel progress with
              | None => OutOfFuel
              | Some progress => Returned (Some (moonPatch progress))
              end
          end
      end
  end.

(** The Earth's orbit line: [new Array(129).fill(0).map((_, i) => ...)]. *)
Definition earthOrbitLine (isMobile : bool) : list Vector3 :=
  map (fun i : nat =>
         mkVector3 (cos (INR i / 128 * PI * 2) * EARTH_DIST isMobile)
                   0
                   (sin (INR i / 128 * PI * 2) * EARTH_DIST isMobile))
      (seq 0 129).

(** The drag mode: [handleStartDragEarth], [handleStartDragMoon],
    [handleEndDrag] as functions of the [dragTarget] state. *)
Definition handleStartDragEarth (miniMap : bool)
    (dragTarget : option DragTarget) : option DragTarget :=
  if miniMap then dragTarget else Some earth.
Definition handleStartDragMoon (miniMap : bool)
    (dragTarget : option DragTarget) : option DragTarget :=
  if miniMap then dragTarget else Some moon.
Definition handleEndDrag (dragTarget : option DragTarget)
  : option DragTarget := None.

(** [<OrbitControls enabled={!dragTarget} />] *)
Definition controlsEnabled (dragTarget : option DragTarget) : bool :=
  match dragTarget with None => true | Some _ => false end.

End Scene.

End UniverseView.

(** A drag event end to end: [handleDragUpdate] runs on the [state] prop of
    the last render, and [App]'s [onChange] merges its patch into the state
    [prev] current at that moment.  [None]: the handler ran out of fuel. *)
Definition dragUpdate (fuel : nat) (dragTarget : option DragTarget)
    (miniMap isMobile : bool) (state : CelestialState) (point : Vector3)
    (prev : CelestialState) : option CelestialState :=
  match UniverseView.Scene.handleDragUpdate
          fuel dragTarget miniMap isMobile state point with
  | Returned None => Some prev
  | Returned (Some patch) => Some (App.onChange patch prev)
  | OutOfFuel => None
  end.

(** ** The sky of [src/components/HomeView.tsx] *)

(** The body of the [SkyContent] component. *)
Module SkyContent.

Definition radius : R := 600.

Definition sunAzimuth (state : CelestialState) : R :=
  (time state - 12) * (PI / 12).
Definition sunX (state : CelestialState) : R :=
  sin (sunAzimuth state) * radius.
Definition sunZ (state : CelestialState) : R :=
  (- cos (sunAzimuth state)) * radius.
Definition sunY (state : CelestialState) : R :=
  cos (sunAzimuth state) * 350.

Definition moonOrbitAngle (state : CelestialState) : R :=
  moonOrbitProgress state * PI * 2.
Definition moonAzimuth (state : CelestialState) : R :=
  sunAzimuth state + moonOrbitAngle state.
Definition moonX (state : CelestialState) : R :=
  sin (moonAzimuth state) * (radius - 50).
Definition moonZ (state : CelestialState) : R :=
  (- cos (moonAzimuth state)) * (radius - 50).
Definition moonY (state : CelestialState) : R :=
  cos (moonAzimuth state) * 280 + 50.

Definition isDay (state : CelestialState) : bool :=
  JS.geb (time state) 6 && JS.ltb (time state) 18.

(** The [useFrame] callback: the intensity it gives the Moon's light. *)
Definition distFromNew (state : CelestialState) : R :=
  let p := HomeView.normalize (moonOrbitProgress state) in
  Rmin p (1 - p).

(** The scale [pushScale] by which the light is pushed along the line
    from the camera to the Moon, when it is ([distFromNew < 0.25]);
    [Math.pow] on a base in (0, 1]. *)
Definition pushScale (state : CelestialState) : option R :=
  if JS.ltb (distFromNew state) 0.25 then
    let thinningPower := Rpower (1 - distFromNew state / 0.25) 0.6 in
    Some (1.15 * thinningPower)
  else None.

(** The Moon group: whether the Moon mesh is rendered with
    [visible={false}]. *)
Definition moonHidden (state : CelestialState) : bool :=
  let prog := HomeView.normalize (moonOrbitProgress state) in
  let isNewMoon := JS.ltb prog 0.03 || JS.gtb prog 0.97 in
  let isWaxingCrescent := JS.geb prog 0.03 && JS.ltb prog 0.22 in
  let hour := time state in
  let isWaxingCrescentVisible :=
    isWaxingCrescent && JS.geb hour 18 && JS.ltb hour 24 in
  isNewMoon || (isWaxingCrescent && negb isWaxingCrescentVisible).

(** The black half sphere laid over a visible Moon: its x position and the
    [phiStart] of its geometry, or [None] when no shadow is drawn. *)
Definition shadow (state : CelestialState) : option (R * R) :=
  let prog := HomeView.normalize (moonOrbitProgress state) in
  if JS.geb prog 0.03 && JS.ltb prog 0.22 then Some (-13, 0)
  else if JS.geb prog 0.22 && JS.ltb prog 0.28 then Some (-9, 0)
  else if JS.geb prog 0.72 && JS.ltb prog 0.78 then Some (9, PI)
  else if JS.geb prog 0.78 && JS.ltb prog 0.97 then Some (13, PI)
  else None.

End SkyContent.

(** The body of the [Constellations] component; [month] is
    [state.date.getMonth() + 1]. *)
Module Constellations.

Inductive Constellation := Leo | BigDipper | Pegasus | Cassiopeia.

Definition constellations : list Constellation :=
  [Leo; BigDipper; Pegasus; Cassiopeia].

Definition visible (month : Z) (c : Constellation) : bool :=
  match c with
  | Leo => ((2 <=? month) && (month <=? 5))%Z
  | BigDipper => ((4 <=? month) && (month <=? 8))%Z
  | Pegasus => ((8 <=? month) && (month <=? 11))%Z
  | Cassiopeia => ((10 <=? month) || (month <=? 2))%Z
  end.

Definition baseAngle (c : Constellation) : R :=
  match c with
  | Leo => PI / 2
  | BigDipper => PI * 1.5
  | Pegasus => PI
  | Cassiopeia => 0
  end.

Definition isDay (state : CelestialState) : bool :=
  JS.geb (time state) 6 && JS.ltb (time state) 18.

Definition hourAngle (state : CelestialState) : R :=
  time state / 24 * PI * 2.
Definition baseAzimuth (state : CelestialState) : R :=
  earthOrbitProgress state * PI * 2.

Definition radius : R := 400.
Definition height : R := 150.

(** Where a constellation's group is placed. *)
Definition azimuth (state : CelestialState) (c : Constellation) : R :=
  baseAngle c + baseAzimuth state - hourAngle state.
Definition groupPosition (state : CelestialState) (c : Constellation)
  : Vector3 :=
  mkVector3 (sin (azimuth state c) * radius)
            height
            ((- cos (azimuth state c)) * radius).

(** The constellations that are rendered. *)
Definition rendered (state : CelestialState) (month : Z)
  : list Constellation :=
  if isDay state then [] else filter (visible month) constellations.

End Constellations.

(** The [useFrame] callback of the [Character3D] component, on the values
    its refs hold (the camera that follows the character is left out). *)
Module Character3D.

Inductive Direction := south | east | west.

Record Character := mkCharacter {
  position : Vector3;        (* positionRef *)
  targetRotation : R;
  walkTime : R;
  rotationY : R;             (* characterRef.current.rotation.y *)
  leftArm : R;               (* rotation.x of each limb *)
  rightArm : R;
  leftLeg : R;
  rightLeg : R;
  currentDirection : Direction
}.

(** [keysPressed.current]: a key that was never pressed reads as
    [undefined], which is falsy. *)
Definition Keys := string -> bool.

(** [THREE.MathUtils.lerp] *)
Definition lerp (a b t : R) : R := (1 - t) * a + t * b.

Definition turnAtLeftEdge (d : Direction) : Direction :=
  match d with south => east | east => west | west => south end.
Definition turnAtRightEdge (d : Direction) : Direction :=
  match d with south => west | west => east | east => south end.

Definition frame (keysPressed : Keys) (delta : R) (c : Character)
  : Character :=
  let moveSpeed := 20 in
  let w := keysPressed "w"%string in
  let s := keysPressed "s"%string in
  let a := keysPressed "a"%string in
  let d := keysPressed "d"%string in
  let vz := 0 in
  let vz := if w then vz - moveSpeed * delta else vz in
  let vz := if s then vz + moveSpeed * delta else vz in
  let vx := 0 in
  let vx := if a then vx - moveSpeed * delta else vx in
  let vx := if d then vx + moveSpeed * delta else vx in
  let target := targetRotation c in
  let target := if w then 0 else target in
  let target := if s then PI else target in
  let target := if a then PI / 2 else target in
  let target := if d then - PI / 2 else target in
  let isMoving := w || s || a || d in
  let walk := if isMoving then walkTime c + delta * 10 else walkTime c in
  let left := if isMoving then sin walk * 0.5 else 0 in
  let right := if isMoving then sin (walk + PI) * 0.5 else 0 in
  let px := x (position c) + vx in
  let py := y (position c) + 0 in
  let pz := z (position c) + vz in
  let boundary := 200 in
  let dir := currentDirection c in
  let '(px, dir) :=
    if JS.ltb px (- boundary) then (boundary, turnAtLeftEdge dir)
    else (px, dir) in
  let '(px, dir) :=
    if JS.gtb px boundary then (- boundary, turnAtRightEdge dir)
    else (px, dir) in
  let pz := if JS.ltb pz (- boundary) then boundary else pz in
  let pz := if JS.gtb pz boundary then - boundary else pz in
  {| position := mkVector3 px py pz;
     targetRotation := target;
     walkTime := walk;
     rotationY := lerp (rotationY c) target 0.1;
     leftArm := left;
     rightArm := right;
     leftLeg := left;
     rightLeg := right;
     currentDirection := dir |}.

(** The initial values of the refs and of the state. *)
Definition initial : Character :=
  {| position := mkVector3 0 (-10) 0;
     targetRotation := 0;
     walkTime := 0;
     rotationY := 0;
     leftArm := 0; rightArm := 0; leftLeg := 0; rightLeg := 0;
     currentDirection := south |}.

End Character3D.

(** ** The application as a whole: state and events *)

Inductive ViewMode := HOME | UNIVERSE.

(** [toggleView] *)
Definition toggleView (viewMode : ViewMode) : ViewMode :=
  match viewMode with HOME => UNIVERSE | UNIVERSE => HOME end.

(** The events on the handlers of the interactive Universe view: pointer
    down on the Earth's or the Moon's hit sphere, and the three handlers of
    [InteractionPlane]. *)
Inductive PointerEvent :=
| PointerDownEarth
| PointerDownMoon
| PointerMove (point : Vector3)
| PointerUp
| PointerLeave.

Inductive AppEvent :=
| TimerTick
| ToggleView
| TimeInput (value : string)
| DateInput (newDate : Date)
| Pointer (event : PointerEvent).

(** The state of [App] together with the [dragTarget] of the [Scene] it
    mounts in Universe mode. *)
Record Session := mkSession {
  viewMode : ViewMode;
  celestialState : CelestialState;
  dragTarget : option DragTarget
}.


(** A pointer event in the [Scene] that [App] mounts ([miniMap] is not
    passed, so it is [false]); [state] is the prop of the last render.
    [InteractionPlane] forwards a move only while [isDragging]. *)
Definition pointerEvent (fuel : nat) (isMobile : bool)
    (event : PointerEvent) (st : Session) : option Session :=
  match event with
  | PointerDownEarth =>
      Some {| viewMode := viewMode st;
              celestialState := celestialState st;
              dragTarget :=
                UniverseView.Scene.handleStartDragEarth false (dragTarget st) |}
  | PointerDownMoon =>
      Some {| viewMode := viewMode st;
              celestialState := celestialState st;
              dragTarget :=
                UniverseView.Scene.handleStartDragMoon false (dragTarget st) |}
  | PointerMove point =>
      match dragTarget st with
      | None => Some st
      | Some _ =>
          match dragUpdate fuel (dragTarget st) false isMobile
                  (celestialState st) point (celestialState st) with
          | Some s' =>
              Some {| viewMode := viewMode st;
                      celestialState := s';
                      dragTarget := dragTarget st |}
          | None => None
          end
      end
  | PointerUp | PointerLeave =>
      Some {| viewMode := viewMode st;
              celestialState := celestialState st;
              dragTarget := UniverseView.Scene.handleEndDrag (dragTarget st) |}
  end.

(** One event.  The Universe view, and with it the [Scene] and its
    [dragTarget], exists only in Universe mode: pointer events reach no
    handler in Home mode, and toggling the view mounts a fresh [Scene]. *)
Definition step (fuel : nat) (isMobile : bool)
    (event : AppEvent) (st : Session) : option Session :=
  match event with
  | TimerTick =>
      Some {| viewMode := viewMode st;
              celestialState := App.tick (celestialState st);
              dragTarget := dragTarget st |}
  | ToggleView =>
      Some {| viewMode := toggleView (viewMode st);
              celestialState := celestialState st;
              dragTarget := None |}
  | TimeInput value =>
      Some {| viewMode := viewMode st;
              celestialState := App.handleTimeChange value (celestialState st);
              dragTarget := dragTarget st |}
  | DateInput newDate =>
      Some {| viewMode := viewMode st;
              celestialState := App.handleDateChange newDate (celestialState st);
              dragTarget := dragTarget st |}
  | Pointer event =>
      match viewMode st with
      | HOME => Some st
      | UNIVERSE => pointerEvent fuel isMobile event st
      end
  end.

Fixpoint run (fuel : nat) (isMobile : bool)
    (events : list AppEvent) (st : Session) : option Session :=
  match events with
  | [] => Some st
  | event :: rest =>
      match step fuel isMobile event st with
      | Some st' => run fuel isMobile rest st'
      | None => None
      end
  end.

(** ** The arithmetic code on binary64 floats

    The same functions as above, with [number] read as the kernel's IEEE 754
    binary64 [float]: [+], [-], [*], [/] and the comparisons are the primitive
    operations; [%] and [Math.floor], which IEEE arithmetic computes without
    rounding error, are computed exactly on the mantissa and exponent. *)

Module F64.

Local Open Scope float_scope.
Set Warnings "-inexact-float".

(** A number from an integer (exact below 2^53). *)
Definition of_Z (n : Z) : float :=
  if (n <? 0)%Z then - of_uint63 (Uint63.of_Z (- n))
  else of_uint63 (Uint63.of_Z n).

(** [a % b] (C's [fmod]): the result has the sign of [a] and is exact. *)
Definition rem (a b : float) : float :=
  match Prim2SF a, Prim2SF b with
  | S754_nan, _ | _, S754_nan => nan
  | S754_infinity _, _ => nan
  | _, S754_zero _ => nan
  | _, S754_infinity _ => a
  | S754_zero _, _ => a
  | S754_finite sa ma ea, S754_finite _ mb eb =>
      let e := Z.min ea eb in
      let r := ((Zpos ma * 2 ^ (ea - e)) mod (Zpos mb * 2 ^ (eb - e)))%Z in
      match r with
      | Zpos m => SF2Prim (S754_finite sa m e)
      | _ => if sa then neg_zero else zero
      end
  end.

(** [Math.floor]. *)
Definition floor (a : float) : float :=
  match Prim2SF a with
  | S754_finite s m e =>
      if (0 <=? e)%Z then a
      else of_Z ((if s then Zneg m else Zpos m) / 2 ^ (- e))
  | _ => a
  end.

Record CelestialState := mkState {
  time : float;
  date : Date;
  earthOrbitProgress : float;
  moonOrbitProgress : float
}.

Definition initialState : CelestialState :=
  {| time := 18.0;
     date := referenceDate;
     earthOrbitProgress := 0;
     moonOrbitProgress := 0 |}.

Definition timeIncrement : float := 0.02.

Definition tick (prev : CelestialState) : CelestialState :=
  let newTime := time prev + timeIncrement in
  let newDate :=
    if 24 <=? newTime then Date_nextDay (date prev) else date prev in
  let earthIncrement := timeIncrement / (24 * 365) in
  let moonIncrement := timeIncrement / (24 * 28) in
  {| time := rem newTime 24;
     date := newDate;
     earthOrbitProgress := rem (earthOrbitProgress prev + earthIncrement) 1;
     moonOrbitProgress := rem (moonOrbitProgress prev + moonIncrement) 1 |}.

Definition daysDiff (newTime refTime : Z) : float :=
  floor ((of_Z newTime - of_Z refTime) / (1000 * 60 * 60 * 24)).

Definition wrapNegative (p : float) : float :=
  if p <? 0 then p + 1 else p.

Definition handleDateChange (newDate : Date) (prev : CelestialState)
  : CelestialState :=
  match newDate, referenceDate with
  | Some t, Some t0 =>
      let d := daysDiff t t0 in
      let newEarthProgress := rem (d / 365) 1 in
      let newMoonProgress := rem (d / 28) 1 in
      {| time := time prev;
         date := newDate;
         earthOrbitProgress := wrapNegative newEarthProgress;
         moonOrbitProgress := wrapNegative newMoonProgress |}
  | _, _ => prev
  end.

Definition normalize (progress : float) : float :=
  rem (rem progress 1 + 1) 1.

(** [moonPhaseText] of [HomeView.tsx]. *)
Definition moonPhaseText (moonOrbitProgress : float) : PhaseName :=
  let prog := normalize moonOrbitProgress in
  if (prog <? 0.03) || (0.97 <? prog) then NewMoon
  else if (0.03 <=? prog) && (prog <? 0.22) then WaxingCrescent
  else if (0.22 <=? prog) && (prog <? 0.28) then FirstQuarter
  else if (0.28 <=? prog) && (prog <? 0.47) then WaxingGibbous
  else if (0.47 <=? prog) && (prog <? 0.53) then FullMoon
  else if (0.53 <=? prog) && (prog <? 0.72) then WaningGibbous
  else if (0.72 <=? prog) && (prog <? 0.78) then LastQuarter
  else if (0.78 <=? prog) && (prog <? 0.97) then WaningCrescent
  else Unlabelled.

(** [n] runs of the timer callback. *)
Definition ticks (n : nat) (s : CelestialState) : CelestialState :=
  Nat.iter n tick s.

(** [Math.PI]. *)
Definition PI : float := 3.141592653589793.

(** The arithmetic of the Earth branch of [handleDragUpdate], from the
    [angle] that [Math.atan2] returned. *)
Definition earthDragProgress (angle : float) : float :=
  let progress := angle / (PI * 2) in
  if progress <? 0 then progress + 1 else progress.

End F64.

(** ** Vocabulary of the statements below *)

(** The epoch state with the two orbit fields replaced. *)
Definition withProgress (earthProgress moonProgress : R) : CelestialState :=
  {| time := time App.initialState;
     date := date App.initialState;
     earthOrbitProgress := earthProgress;
     moonOrbitProgress := moonProgress |}.




(** The steps of the two progress values per tick. *)
Definition earthIncrement : R := App.timeIncrement / (24 * 365).
Definition moonIncrement : R := App.timeIncrement / (24 * 28).

(** Addition modulo [period] of a small step to a canonical value. *)
Definition wrapOnce (period v : R) : R :=
  if Rle_dec period v then v - period else v.

(** [a] is [b] moved by a whole number of periods: the result of wrapping
    [b], as opposed to clamping it. *)
Definition congruent (period a b : R) : Prop :=
  exists k : Z, a = b + period * IZR k.



(** The names of [App.tsx]'s table against those of [HomeView.tsx]'s. *)
Definition swapWaxingWaning (n : PhaseName) : PhaseName :=
  match n with
  | WaxingCrescent => WaningCrescent
  | FirstQuarter => LastQuarter
  | WaxingGibbous => WaningGibbous
  | WaningGibbous => WaxingGibbous
  | LastQuarter => FirstQuarter
  | WaningCrescent => WaxingCrescent
  | other => other
  end.

(** [n] frames with the same keys down and the same frame time. *)
Definition frames (n : nat) (keysPressed : Character3D.Keys) (delta : R)
    (c : Character3D.Character) : Character3D.Character :=
  Nat.iter n (Character3D.frame keysPressed delta) c.


(** * Properties *)

(** ** The executable parts on sample inputs *)

Example sanitize_strips_letters : App.sanitize "1a:3b0" = "1:30"%string.
Proof. reflexivity. Qed.

Example split_lone_colon :
  App.split ":" = [EmptyString; EmptyString].
Proof. reflexivity. Qed.

Example parseTime_clock : App.parseTime "07:30" = (Some 7%Z, Some 30%Z).
Proof. reflexivity. Qed.

Example parseTime_without_minutes : App.parseTime "12" = (Some 12%Z, None).
Proof. reflexivity. Qed.

Example parseTime_third_field_ignored :
  App.parseTime "12:30:99" = (Some 12%Z, Some 30%Z).
Proof. reflexivity. Qed.

Example rem_binary64 :
  (F64.rem 5.5 2 =? 1.5)%float = true /\
  (F64.rem (-5.5) 2 =? -1.5)%float = true /\
  (F64.floor (-0.5) =? -1)%float = true.
Proof. split; [|split]; vm_compute; reflexivity. Qed.

(** The date editor on binary64 floats: day 182, and a negative offset
    wrapped forward. *)
Example resync_binary64 :
  Prim2SF (F64.earthOrbitProgress
             (F64.handleDateChange (Some (182 * msPerDay)%Z) F64.initialState))
  = Prim2SF 0.49863013698630138%float /\
  Prim2SF (F64.earthOrbitProgress
             (F64.handleDateChange (Some (-1 * msPerDay)%Z) F64.initialState))
  = Prim2SF 0.99726027397260275%float.
Proof. split; vm_compute; reflexivity. Qed.

(** ** The arithmetic of [JS] *)

Section RemFacts.

Lemma ltb_true x y : JS.ltb x y = true <-> x < y.
Proof. unfold JS.ltb; destruct (Rlt_dec x y); split; (lra || discriminate || auto). Qed.

Lemma ltb_false x y : JS.ltb x y = false <-> y <= x.
Proof. unfold JS.ltb; destruct (Rlt_dec x y); split; (lra || discriminate || auto). Qed.

Lemma leb_true x y : JS.leb x y = true <-> x <= y.
Proof. unfold JS.leb; destruct (Rle_dec x y); split; (lra || discriminate || auto). Qed.

Lemma leb_false x y : JS.leb x y = false <-> y < x.
Proof. unfold JS.leb; destruct (Rle_dec x y); split; (lra || discriminate || auto). Qed.

(** The quotient of a truncated division lies within one of the exact
    quotient, on the side of zero. *)
Lemma trunc_nonneg q : 0 <= q -> IZR (JS.trunc q) <= q < IZR (JS.trunc q) + 1.
Proof.
  intros Hq; unfold JS.trunc; destruct (Rle_dec 0 q); [|lra].
  apply Zfloor_bound.
Qed.

Lemma trunc_neg q : q < 0 -> IZR (JS.trunc q) - 1 < q <= IZR (JS.trunc q).
Proof.
  intros Hq; unfold JS.trunc; destruct (Rle_dec 0 q); [lra|].
  apply Zceil_bound.
Qed.

Lemma trunc_eq q k : IZR k <= q < IZR k + 1 -> 0 <= q -> JS.trunc q = k.
Proof.
  intros Hk Hq; unfold JS.trunc; destruct (Rle_dec 0 q); [|lra].
  now apply Zfloor_eq.
Qed.

(** [x % y] differs from [x] by a whole multiple of [y]: it wraps. *)
Lemma rem_wraps a b : exists k : Z, JS.rem a b = a - b * IZR k.
Proof. now exists (JS.trunc (a / b)). Qed.

Lemma rem_nonneg_range a b : 0 <= a -> 0 < b -> 0 <= JS.rem a b < b.
Proof.
  intros Ha Hb; unfold JS.rem.
  assert (Hq : 0 <= a / b) by (apply Rmult_le_pos; [lra | left; now apply Rinv_0_lt_compat]).
  destruct (trunc_nonneg _ Hq) as [H1 H2].
  replace a with (b * (a / b)) at 1 3 by (field; lra).
  split; nra.
Qed.

Lemma rem_nonpos_range a b : a <= 0 -> 0 < b -> - b < JS.rem a b <= 0.
Proof.
  intros Ha Hb; unfold JS.rem.
  destruct (Rle_lt_dec 0 (a / b)) as [Hq|Hq].
  - assert (a / b = 0).
    { apply Rle_antisym; [|exact Hq].
      unfold Rdiv. assert (0 < / b) by now apply Rinv_0_lt_compat. nra. }
    rewrite (trunc_eq (a / b) 0) by (simpl; lra).
    replace a with (b * (a / b)) at 1 2 by (field; lra). simpl; nra.
  - destruct (trunc_neg _ Hq) as [H1 H2].
    replace a with (b * (a / b)) at 1 3 by (field; lra). nra.
Qed.

Lemma rem_range a b : 0 < b -> - b < JS.rem a b < b.
Proof.
  intros Hb; destruct (Rle_lt_dec 0 a) as [Ha|Ha].
  - pose proof (rem_nonneg_range a b Ha Hb); lra.
  - pose proof (rem_nonpos_range a b (Rlt_le _ _ Ha) Hb); lra.
Qed.

(** [a % b] when [a] lies [k] whole periods above its remainder. *)
Lemma rem_eq a b k :
  0 < b -> 0 <= a -> b * IZR k <= a < b * IZR k + b -> JS.rem a b = a - b * IZR k.
Proof.
  intros Hb Ha Hk; unfold JS.rem.
  assert (Hq : 0 <= a / b) by (apply Rmult_le_pos; [lra | left; now apply Rinv_0_lt_compat]).
  rewrite (trunc_eq (a / b) k); auto.
  split.
  - apply Rmult_le_reg_l with b; [lra|]. replace (b * (a / b)) with a by (field; lra). lra.
  - apply Rmult_lt_reg_l with b; [lra|]. replace (b * (a / b)) with a by (field; lra). lra.
Qed.

Lemma rem_small a b : 0 <= a < b -> JS.rem a b = a.
Proof.
  intros H; rewrite (rem_eq a b 0); simpl; lra.
Qed.

Lemma rem_once a b : 0 < b -> b <= a < 2 * b -> JS.rem a b = a - b.
Proof.
  intros Hb H; rewrite (rem_eq a b 1); simpl; lra.
Qed.

Lemma rem_neg_small a b : - b < a <= 0 -> JS.rem a b = a.
Proof.
  intros H; unfold JS.rem.
  assert (Hb : 0 < b) by lra.
  assert (Hlo : -1 < a / b).
  { apply Rmult_lt_reg_l with b; [lra|].
    replace (b * (a / b)) with a by (field; lra). lra. }
  assert (Hhi : a / b <= 0).
  { apply Rmult_le_reg_l with b; [lra|].
    replace (b * (a / b)) with a by (field; lra). lra. }
  unfold JS.trunc; destruct (Rle_dec 0 (a / b)).
  - rewrite (Zfloor_eq 0); simpl; lra.
  - rewrite (Zceil_eq 0); simpl; lra.
Qed.

(** Two numbers of [0, 1) that differ by an integer are equal. *)
Lemma unit_interval_unique a b (k : Z) :
  0 <= a < 1 -> 0 <= b < 1 -> a = b + IZR k -> a = b.
Proof.
  intros Ha Hb E.
  assert (k = 0%Z).
  { assert (H1 : (-1 < k)%Z) by (apply lt_IZR; simpl; lra).
    assert (H2 : (k < 1)%Z) by (apply lt_IZR; simpl; lra). lia. }
  subst k; simpl in E; lra.
Qed.

End RemFacts.

(** ** [Math.atan2] *)

Section Atan2Facts.

(** What is known of [a = atan t]: it lies on the right half of the unit
    circle, with slope [t]. *)
Lemma atan_slope t :
  0 < cos (atan t) /\ sin (atan t) = t * cos (atan t).
Proof.
  pose proof (atan_bound t) as [Hlo Hhi].
  assert (Hc : 0 < cos (atan t)) by (apply cos_gt_0; lra).
  split; [exact Hc|].
  pose proof (tan_atan t) as Ht; unfold tan in Ht.
  rewrite <- Ht at 2. field. lra.
Qed.

Lemma atan_sign_neg t : t < 0 -> atan t < 0.
Proof. intros H; rewrite <- atan_0; now apply atan_increasing. Qed.

Lemma atan_sign_nonpos t : t <= 0 -> atan t <= 0.
Proof.
  intros [H|H]; [left; now apply atan_sign_neg | subst t; rewrite atan_0; lra].
Qed.

(** The result of [Math.atan2] lies in (-PI, PI]. *)
Lemma atan2_bound b a : - PI < JS.atan2 b a <= PI.
Proof.
  pose proof PI_RGT_0 as Hpi.
  unfold JS.atan2.
  destruct (Rlt_dec 0 a) as [Ha|Ha].
  - pose proof (atan_bound (b / a)); lra.
  - destruct (Rlt_dec a 0) as [Ha'|Ha'].
    + assert (Hi : / a < 0) by now apply Rinv_lt_0_compat.
      pose proof (atan_bound (b / a)).
      destruct (Rle_dec 0 b) as [Hb|Hb].
      * assert (b / a <= 0) by (unfold Rdiv; nra).
        pose proof (atan_sign_nonpos _ H0). lra.
      * assert (Hq : 0 < b / a) by (unfold Rdiv; nra).
        apply atan_increasing in Hq; rewrite atan_0 in Hq. lra.
    + destruct (Rlt_dec 0 b); [lra|].
      destruct (Rlt_dec b 0); lra.
Qed.

(** Only the direction of [(a, b)] matters. *)
Lemma atan2_scale b a k : 0 < k -> JS.atan2 (b * k) (a * k) = JS.atan2 b a.
Proof.
  intros Hk; unfold JS.atan2.
  destruct (Rlt_dec 0 a) as [Ha|Ha].
  - destruct (Rlt_dec 0 (a * k)) as [_|H]; [|exfalso; apply H; nra].
    f_equal; field; lra.
  - destruct (Rlt_dec 0 (a * k)) as [H|_]; [exfalso; nra|].
    destruct (Rlt_dec a 0) as [Ha'|Ha'].
    + destruct (Rlt_dec (a * k) 0) as [_|H]; [|exfalso; apply H; nra].
      replace (b * k / (a * k)) with (b / a) by (field; lra).
      destruct (Rle_dec 0 b) as [Hb|Hb].
      * destruct (Rle_dec 0 (b * k)) as [_|H]; [reflexivity|exfalso; apply H; nra].
      * destruct (Rle_dec 0 (b * k)) as [H|_]; [exfalso; nra|reflexivity].
    + destruct (Rlt_dec (a * k) 0) as [H|_]; [exfalso; nra|].
      destruct (Rlt_dec 0 b) as [Hb|Hb].
      * destruct (Rlt_dec 0 (b * k)) as [_|H]; [reflexivity|exfalso; apply H; nra].
      * destruct (Rlt_dec 0 (b * k)) as [H|_]; [exfalso; nra|].
        destruct (Rlt_dec b 0) as [Hb'|Hb'].
        -- destruct (Rlt_dec (b * k) 0) as [_|H]; [reflexivity|exfalso; apply H; nra].
        -- destruct (Rlt_dec (b * k) 0) as [H|_]; [exfalso; nra|reflexivity].
Qed.

(** A point of the right half-plane on the unit circle is the point at
    angle [atan (b / a)]. *)
Lemma unit_slope c s a b :
  s * a = b * c -> s * s + c * c = 1 -> a * a + b * b = 1 ->
  c * c = a * a.
Proof.
  intros Hs H1 H2.
  assert (E : c * c - a * a = (b * c - s * a) * (b * c + s * a)).
  { replace (c * c - a * a)
      with (c * c * (a * a + b * b) - a * a * (s * s + c * c))
      by (rewrite H1, H2; ring).
    ring. }
  rewrite <- Hs in E.
  replace (s * a - s * a) with 0 in E by ring. lra.
Qed.

(** On the unit circle, [atan2] recovers the angle whose cosine and sine
    are the coordinates. *)
Lemma atan2_unit b a :
  a * a + b * b = 1 ->
  cos (JS.atan2 b a) = a /\ sin (JS.atan2 b a) = b.
Proof.
  intros Hu; unfold JS.atan2.
  destruct (Rlt_dec 0 a) as [Ha|Ha].
  - destruct (atan_slope (b / a)) as [Hc Hs].
    set (c := cos (atan (b / a))) in *; set (s := sin (atan (b / a))) in *.
    assert (Hsa : s * a = b * c) by (rewrite Hs; field; lra).
    assert (H1 : s * s + c * c = 1).
    { pose proof (sin2_cos2 (atan (b / a))) as H; unfold Rsqr in H; exact H. }
    pose proof (unit_slope c s a b Hsa H1 Hu) as Hca.
    assert (c = a) by nra.
    split; [assumption|]. subst c. nra.
  - destruct (Rlt_dec a 0) as [Ha'|Ha'].
    + destruct (atan_slope (b / a)) as [Hc Hs].
      assert (Hcs : cos (atan (b / a)) = - a /\ sin (atan (b / a)) = - b).
      { set (c := cos (atan (b / a))) in *; set (s := sin (atan (b / a))) in *.
        assert (Hsa : s * a = b * c) by (rewrite Hs; field; lra).
        assert (H1 : s * s + c * c = 1).
        { pose proof (sin2_cos2 (atan (b / a))) as H; unfold Rsqr in H; exact H. }
        pose proof (unit_slope c s a b Hsa H1 Hu) as Hca.
        assert (c = - a) by nra.
        split; [assumption|]. nra. }
      destruct Hcs as [Ec Es].
      destruct (Rle_dec 0 b).
      * rewrite neg_cos, neg_sin, Ec, Es; split; ring.
      * rewrite cos_minus, sin_minus, cos_PI, sin_PI, Ec, Es; split; ring.
    + assert (a = 0) by lra; subst a.
      destruct (Rlt_dec 0 b) as [Hb|Hb].
      * rewrite cos_PI2, sin_PI2; split; [reflexivity|nra].
      * destruct (Rlt_dec b 0) as [Hb'|Hb'].
        -- rewrite cos_neg, sin_neg, cos_PI2, sin_PI2; split; [reflexivity|nra].
        -- exfalso; nra.
Qed.

(** Two angles of (-PI, PI] with the same cosine and sine are equal. *)
Lemma angle_unique u v :
  - PI < u <= PI -> - PI < v <= PI ->
  cos u = cos v -> sin u = sin v -> u = v.
Proof.
  intros Hu Hv Ec Es.
  pose proof PI_RGT_0 as Hpi.
  assert (H1 : cos (u - v) = 1).
  { rewrite cos_minus, Ec, Es.
    pose proof (sin2_cos2 v) as H; unfold Rsqr in H; lra. }
  assert (H0 : sin ((u - v) / 2) = 0).
  { replace (u - v) with (2 * ((u - v) / 2)) in H1 by field.
    rewrite cos_2a_sin in H1.
    assert (sin ((u - v) / 2) * sin ((u - v) / 2) = 0) by lra.
    nra. }
  destruct (sin_eq_0_0 _ H0) as [k Hk].
  assert (k = 0%Z).
  { assert (Hlt : -1 < IZR k < 1) by (split; nra).
    destruct Hlt as [L U].
    apply (lt_IZR (-1)) in L; apply (lt_IZR _ 1) in U. lia. }
  subst k; simpl in Hk; lra.
Qed.

(** [atan2] inverts the polar parametrisation on (-PI, PI]. *)
Lemma atan2_polar theta :
  - PI < theta <= PI -> JS.atan2 (sin theta) (cos theta) = theta.
Proof.
  intros H.
  destruct (atan2_unit (sin theta) (cos theta)) as [Hc Hs].
  { pose proof (sin2_cos2 theta) as E; unfold Rsqr in E; lra. }
  apply angle_unique; auto using atan2_bound.
Qed.

End Atan2Facts.

Section Atan2Axes.

Lemma atan2_negative_axis a : a < 0 -> JS.atan2 0 a = PI.
Proof.
  intros Ha; unfold JS.atan2.
  destruct (Rlt_dec 0 a); [lra|].
  destruct (Rlt_dec a 0); [|lra].
  destruct (Rle_dec 0 0); [|lra].
  replace (0 / a) with 0 by (field; lra).
  rewrite atan_0; ring.
Qed.

Lemma atan2_up b : 0 < b -> JS.atan2 b 0 = PI / 2.
Proof.
  intros Hb; unfold JS.atan2.
  destruct (Rlt_dec 0 0); [lra|].
  destruct (Rlt_dec 0 b); [reflexivity|lra].
Qed.

Lemma atan2_down b : b < 0 -> JS.atan2 b 0 = - (PI / 2).
Proof.
  intros Hb; unfold JS.atan2.
  destruct (Rlt_dec 0 0); [lra|].
  destruct (Rlt_dec 0 b); [lra|].
  destruct (Rlt_dec b 0); [reflexivity|lra].
Qed.

End Atan2Axes.

(** ** Dragging the Earth *)

(** The Earth branch of [handleDragUpdate] on a point of the circle of
    radius [radius] at angle [-(2 PI p)], where [EarthSystem] draws the
    Earth: the progress it reports is [1 - p], the mirror image of [p]. *)
Lemma earth_drag_mirrors fuel isMobile state s radius :
  0 < radius -> 0 < earthOrbitProgress s < 1 ->
  UniverseView.Scene.handleDragUpdate fuel (Some earth) false isMobile state
    (UniverseView.EarthSystem.groupPosition s radius)
  = Returned (Some (UniverseView.Scene.earthPatch (1 - earthOrbitProgress s))).
Proof.
  intros Hr Hp. pose proof PI_RGT_0 as Hpi.
  unfold UniverseView.Scene.handleDragUpdate,
    UniverseView.EarthSystem.groupPosition,
    UniverseView.EarthSystem.earthX, UniverseView.EarthSystem.earthZ; simpl.
  set (p := earthOrbitProgress s) in *.
  rewrite atan2_scale by assumption.
  assert (E : JS.atan2 (- sin (p * PI * 2)) (cos (p * PI * 2))
              = if Rlt_dec p (1 / 2) then - (p * PI * 2)
                else 2 * PI - p * PI * 2).
  { destruct (Rlt_dec p (1 / 2)) as [H|H].
    - rewrite <- sin_neg, <- cos_neg. apply atan2_polar. nra.
    - replace (- sin (p * PI * 2)) with (sin (2 * PI - p * PI * 2))
        by (rewrite sin_minus, sin_2PI, cos_2PI; ring).
      replace (cos (p * PI * 2)) with (cos (2 * PI - p * PI * 2))
        by (rewrite cos_minus, sin_2PI, cos_2PI; ring).
      apply atan2_polar. nra. }
  rewrite E.
  do 2 f_equal. unfold UniverseView.Scene.earthPatch. f_equal. f_equal.
  destruct (Rlt_dec p (1 / 2)) as [H|H].
  - replace (- (p * PI * 2) / (PI * 2)) with (- p) by (field; lra).
    destruct (JS.ltb (- p) 0) eqn:B.
    + ring.
    + apply ltb_false in B. lra.
  - replace ((2 * PI - p * PI * 2) / (PI * 2)) with (1 - p) by (field; lra).
    destruct (JS.ltb (1 - p) 0) eqn:B.
    + apply ltb_true in B. lra.
    + reflexivity.
Qed.

(** C2.  Dragging the Earth to the very point where it is drawn does not
    give back its progress: with the Earth a quarter of the way round its
    orbit (progress 1/4, drawn at [(0, 0, -EARTH_DIST)]), the Earth branch
    of [handleDragUpdate] reports progress 3/4. *)
Theorem earth_drag_round_trip_fails :
  forall fuel isMobile state,
    UniverseView.Scene.handleDragUpdate fuel (Some earth) false isMobile state
      (UniverseView.EarthSystem.groupPosition
         (withProgress (1 / 4) 0) (UniverseView.Scene.EARTH_DIST isMobile))
    = Returned (Some (UniverseView.Scene.earthPatch (3 / 4)))
    /\ 3 / 4 <> earthOrbitProgress (withProgress (1 / 4) 0).
Proof.
  intros fuel isMobile state; split.
  - rewrite earth_drag_mirrors.
    + simpl. do 3 f_equal. lra.
    + unfold UniverseView.Scene.EARTH_DIST; destruct isMobile; lra.
    + simpl; lra.
  - simpl; lra.
Qed.

(** ** Dragging the Moon *)

Lemma whileNegative_once fuel p :
  -1 <= p < 0 ->
  UniverseView.Scene.whileNegative (S fuel) p = Some (p + 1).
Proof.
  intros Hp; simpl.
  destruct (JS.ltb p 0) eqn:B; [|apply ltb_false in B; lra].
  destruct fuel; simpl;
    (destruct (JS.ltb (p + 1) 0) eqn:B'; [apply ltb_true in B'; lra|reflexivity]).
Qed.

Lemma whileNegative_none fuel p :
  0 <= p -> UniverseView.Scene.whileNegative fuel p = Some p.
Proof.
  intros Hp; destruct fuel; simpl;
    (destruct (JS.ltb p 0) eqn:B; [apply ltb_true in B; lra|reflexivity]).
Qed.

Lemma whileAtLeastOne_none fuel p :
  p < 1 -> UniverseView.Scene.whileAtLeastOne fuel p = Some p.
Proof.
  intros Hp; destruct fuel; simpl; unfold JS.geb;
    (destruct (JS.leb 1 p) eqn:B; [apply leb_true in B; lra|reflexivity]).
Qed.

(** C1.  Placing the Moon and inverting the drag is not the identity.
    With the Earth at progress 0 and the Moon at progress 1/4, the Moon is
    drawn at [(EARTH_DIST, 0, MOON_DIST)] and the Moon branch of
    [handleDragUpdate] reports progress 3/4 for that point.  And with the
    Earth at progress 1/4 the Earth position recomputed inside the handler,
    [z = +EARTH_DIST], is not the one [EarthSystem] drew the Moon around,
    [z = -EARTH_DIST]. *)
Theorem moon_drag_round_trip_fails :
  forall fuel isMobile,
    let d := UniverseView.Scene.EARTH_DIST isMobile in
    let m := UniverseView.Scene.MOON_DIST isMobile in
    UniverseView.Scene.handleDragUpdate (S fuel) (Some moon) false isMobile
      (withProgress 0 (1 / 4))
      (UniverseView.EarthSystem.moonWorld (withProgress 0 (1 / 4)) d m)
    = Returned (Some (UniverseView.Scene.moonPatch (3 / 4)))
    /\ 3 / 4 <> moonOrbitProgress (withProgress 0 (1 / 4))
    /\ UniverseView.EarthSystem.earthZ (withProgress (1 / 4) 0) d = - d
    /\ UniverseView.Scene.earthZ (withProgress (1 / 4) 0) isMobile = d.
Proof.
  intros fuel isMobile d m. pose proof PI_RGT_0 as Hpi.
  assert (Hd : 0 < d) by (unfold d, UniverseView.Scene.EARTH_DIST; destruct isMobile; lra).
  assert (Hm : 0 < m) by (unfold m, UniverseView.Scene.MOON_DIST; destruct isMobile; lra).
  split; [|split; [simpl; lra|split]].
  - unfold UniverseView.Scene.handleDragUpdate,
      UniverseView.EarthSystem.moonWorld, UniverseView.EarthSystem.toWorld,
      UniverseView.EarthSystem.moonLocal, UniverseView.EarthSystem.groupPosition,
      UniverseView.EarthSystem.moonAngle, UniverseView.EarthSystem.angleToSun,
      UniverseView.EarthSystem.earthX, UniverseView.EarthSystem.earthZ,
      UniverseView.Scene.earthX, UniverseView.Scene.earthZ.
    cbn [x z earthOrbitProgress moonOrbitProgress withProgress].
    fold d m.
    replace (0 * PI * 2) with 0 by ring.
    rewrite sin_0, cos_0.
    replace (- (- 0 * d)) with 0 by ring.
    replace (- (1 * d)) with (- d) by ring.
    replace (- (0 * d)) with 0 by ring.
    rewrite atan2_negative_axis by lra.
    replace (PI + 1 / 4 * PI * 2) with (3 * (PI / 2)) by field.
    rewrite cos_3PI2, sin_3PI2.
    replace (1 * d + 0 * m - 1 * d) with 0 by ring.
    replace (- 0 * d + - -1 * m - 0 * d) with m by ring.
    rewrite atan2_up by assumption.
    replace ((PI / 2 - PI) / (PI * 2)) with (- (1 / 4)) by (field; lra).
    rewrite whileNegative_once by lra.
    rewrite whileAtLeastOne_none by lra.
    do 3 f_equal. lra.
  - unfold UniverseView.EarthSystem.earthZ; simpl.
    replace (1 / 4 * PI * 2) with (PI / 2) by field.
    rewrite sin_PI2; ring.
  - unfold UniverseView.Scene.earthZ; simpl. fold d.
    replace (1 / 4 * PI * 2) with (PI / 2) by field.
    rewrite sin_PI2; ring.
Qed.

(** ** The clock tick *)

Lemma rem_wrapOnce period v :
  0 < period -> 0 <= v < 2 * period -> JS.rem v period = wrapOnce period v.
Proof.
  intros Hp Hv; unfold wrapOnce; destruct (Rle_dec period v).
  - apply rem_once; lra.
  - apply rem_small; lra.
Qed.

Lemma wrapOnce_range period v :
  0 < period -> 0 <= v < 2 * period -> 0 <= wrapOnce period v < period.
Proof. intros Hp Hv; unfold wrapOnce; destruct (Rle_dec period v); lra. Qed.

(** One tick on a canonical state, field by field. *)
Lemma tick_step s :
  canonical s ->
  time (App.tick s) = wrapOnce 24 (time s + App.timeIncrement) /\
  date (App.tick s) =
    (if Rle_dec 24 (time s + App.timeIncrement)
     then Date_nextDay (date s) else date s) /\
  earthOrbitProgress (App.tick s)
    = wrapOnce 1 (earthOrbitProgress s + earthIncrement) /\
  moonOrbitProgress (App.tick s)
    = wrapOnce 1 (moonOrbitProgress s + moonIncrement).
Proof.
  intros (Ht & He & Hm).
  unfold App.tick, earthIncrement, moonIncrement, App.timeIncrement; simpl.
  repeat split.
  - apply rem_wrapOnce; lra.
  - unfold JS.geb, JS.leb. destruct (Rle_dec 24 (time s + 0.02)); reflexivity.
  - apply rem_wrapOnce; lra.
  - apply rem_wrapOnce; lra.
Qed.

Lemma tick_canonical s : canonical s -> canonical (App.tick s).
Proof.
  intros H; destruct (tick_step s H) as (Et & _ & Ee & Em).
  destruct H as (Ht & He & Hm).
  unfold canonical; rewrite Et, Ee, Em.
  unfold earthIncrement, moonIncrement, App.timeIncrement.
  repeat split; apply wrapOnce_range; lra.
Qed.

(** [n] ticks from a canonical state: each field is the exact sum, less
    the whole periods wrapped; the date has moved on by the periods of the
    clock. *)
Lemma ticks_exact n s t0 :
  canonical s -> date s = Some t0 ->
  exists c k m : Z,
    canonical (App.ticks n s) /\
    time (App.ticks n s) = time s + INR n * App.timeIncrement - 24 * IZR c /\
    date (App.ticks n s) = Some (t0 + c * msPerDay)%Z /\
    earthOrbitProgress (App.ticks n s)
      = earthOrbitProgress s + INR n * earthIncrement - IZR k /\
    moonOrbitProgress (App.ticks n s)
      = moonOrbitProgress s + INR n * moonIncrement - IZR m.
Proof.
  intros Hs Hd; induction n as [|n IH].
  - exists 0%Z, 0%Z, 0%Z; simpl; repeat split; try apply Hs; try lra.
    rewrite Hd; f_equal; lia.
  - destruct IH as (c & k & m & Hc & Et & Ed & Ee & Em).
    change (App.ticks (S n) s) with (App.tick (App.ticks n s)).
    set (u := App.ticks n s) in *.
    destruct (tick_step u Hc) as (Et' & Ed' & Ee' & Em').
    exists (if Rle_dec 24 (time u + App.timeIncrement) then c + 1 else c)%Z,
           (if Rle_dec 1 (earthOrbitProgress u + earthIncrement) then k + 1 else k)%Z,
           (if Rle_dec 1 (moonOrbitProgress u + moonIncrement) then m + 1 else m)%Z.
    split; [now apply tick_canonical|].
    rewrite Et', Ed', Ee', Em', S_INR; unfold wrapOnce.
    repeat split.
    + destruct (Rle_dec 24 (time u + App.timeIncrement));
        [rewrite plus_IZR|]; lra.
    + destruct (Rle_dec 24 (time u + App.timeIncrement)); rewrite Ed; simpl;
        f_equal; lia.
    + destruct (Rle_dec 1 (earthOrbitProgress u + earthIncrement));
        [rewrite plus_IZR|]; lra.
    + destruct (Rle_dec 1 (moonOrbitProgress u + moonIncrement));
        [rewrite plus_IZR|]; lra.
Qed.

(** ** Date-driven resynchronisation *)


(** A date a whole number [d] of days from the reference date is [d] days
    away, also for negative [d]. *)
Lemma daysDiff_whole (d : Z) : App.daysDiff (d * msPerDay) 0 = IZR d.
Proof.
  unfold App.daysDiff, JS.floor.
  replace (IZR (d * msPerDay - 0) / IZR msPerDay) with (IZR d).
  - now rewrite ZfloorZ.
  - rewrite Z.sub_0_r, mult_IZR. unfold msPerDay. field.
    apply not_0_IZR; discriminate.
Qed.

(** The phase the date editor stores: the fractional part of [a]. *)
Lemma resync_phase a :
  0 <= App.wrapNegative (JS.rem a 1) < 1 /\
  exists k : Z, App.wrapNegative (JS.rem a 1) = a + IZR k.
Proof.
  destruct (rem_wraps a 1) as [k Hk].
  unfold App.wrapNegative.
  destruct (JS.ltb (JS.rem a 1) 0) eqn:B.
  - apply ltb_true in B.
    pose proof (rem_range a 1 Rlt_0_1).
    split; [lra|]. exists (1 - k)%Z. rewrite minus_IZR. lra.
  - apply ltb_false in B.
    pose proof (rem_range a 1 Rlt_0_1).
    split; [lra|]. exists (- k)%Z. rewrite opp_IZR. lra.
Qed.



(** The epoch is at 18:00, so the date field changes for the first time
    after 300 ticks, six hours in: the clock then shows the day after the
    epoch at 0:00, with a quarter of a day's progress.  The date editor's
    phases are those of the clock at 18:00 of the chosen day. *)
Lemma ticks_first_midnight :
  let s := App.ticks 300 App.initialState in
  time s = 0 /\ date s = Some msPerDay /\
  earthOrbitProgress s = (1 / 4) / 365 /\
  moonOrbitProgress s = (1 / 4) / 28.
Proof.
  intros s; subst s.
  assert (Hinit : canonical App.initialState)
    by (unfold canonical; simpl; lra).
  destruct (ticks_exact 300 App.initialState 0 Hinit eq_refl)
    as (c & k & m & (Ht & He & Hm) & Et & Ed & Ee & Em).
  remember (App.ticks 300 App.initialState) as s eqn:Es; clear Es.
  assert (HN : INR 300 = 300).
  { change 300%nat with (Z.to_nat 300). rewrite INR_IZR_INZ, Z2Nat.id by lia.
    reflexivity. }
  rewrite HN in Et, Ee, Em.
  unfold App.timeIncrement in Et; simpl in Et.
  unfold earthIncrement, App.timeIncrement in Ee; simpl in Ee.
  unfold moonIncrement, App.timeIncrement in Em; simpl in Em.
  assert (Hc : c = 1%Z).
  { assert (H1 : 0 < IZR c < 2) by lra.
    destruct H1 as [L U].
    apply (lt_IZR 0) in L; apply (lt_IZR _ 2) in U. lia. }
  assert (Hk : k = 0%Z).
  { assert (H1 : -1 < IZR k < 1) by lra.
    destruct H1 as [L U].
    apply (lt_IZR (-1)) in L; apply (lt_IZR _ 1) in U. lia. }
  assert (Hm0 : m = 0%Z).
  { assert (H1 : -1 < IZR m < 1) by lra.
    destruct H1 as [L U].
    apply (lt_IZR (-1)) in L; apply (lt_IZR _ 1) in U. lia. }
  subst c k m. simpl in Et, Ee, Em.
  repeat split; try lra.
  rewrite Ed. reflexivity.
Qed.


(** On binary64 floats the clock and the editor stay close over the first
    simulated day: both progress values agree to within 1e-15. *)
Lemma resync_close_to_ticks_binary64 :
  let a := F64.ticks 1200 F64.initialState in
  let b := F64.handleDateChange (Some (1 * msPerDay)%Z) F64.initialState in
  (abs (F64.earthOrbitProgress a - F64.earthOrbitProgress b) <? 1e-15)%float
  = true /\
  (abs (F64.moonOrbitProgress a - F64.moonOrbitProgress b) <? 1e-15)%float
  = true /\
  F64.date a = F64.date b.
Proof. split; [|split]; vm_compute; reflexivity. Qed.


(** ** The phase tables *)

(** Settles every comparison of the goal whose outcome [lra] can tell. *)
Ltac settle_comparisons :=
  unfold JS.gtb, JS.geb;
  repeat match goal with
    | |- context [JS.ltb ?a ?b] =>
        first [ rewrite (proj2 (ltb_true a b)) by lra
              | rewrite (proj2 (ltb_false a b)) by lra ]
    | |- context [JS.leb ?a ?b] =>
        first [ rewrite (proj2 (leb_true a b)) by lra
              | rewrite (proj2 (leb_false a b)) by lra ]
    end;
  simpl.

Lemma normalize_range p : 0 <= HomeView.normalize p < 1.
Proof.
  unfold HomeView.normalize.
  pose proof (rem_range p 1 Rlt_0_1).
  apply rem_nonneg_range; lra.
Qed.

Lemma normalize_canonical p : 0 <= p < 1 -> HomeView.normalize p = p.
Proof.
  intros Hp; unfold HomeView.normalize.
  rewrite (rem_small p 1) by lra.
  rewrite rem_once; lra.
Qed.

(** Negative inputs wrap forward. *)
Lemma normalize_negative p : -1 < p < 0 -> HomeView.normalize p = p + 1.
Proof.
  intros Hp; unfold HomeView.normalize.
  rewrite (rem_neg_small p 1) by lra.
  rewrite rem_small; lra.
Qed.

Lemma App_normalize p : App.normalize p = HomeView.normalize p.
Proof. reflexivity. Qed.

(** What is left of a bucket test [lo <= p && p < hi] that failed although
    [lo <= p]: the upper bound. *)
Lemma bucket_missed p lo hi :
  JS.geb p lo && JS.ltb p hi = false -> lo <= p -> hi <= p.
Proof.
  intros H Hlo; apply andb_false_iff in H; destruct H as [H|H].
  - unfold JS.geb in H; apply leb_false in H; lra.
  - now apply ltb_false in H.
Qed.

(** A table of the shape of the two in the source, over any eight names,
    falls through to its last line only at 0.97. *)
Lemma table_total (n0 n1 n2 n3 n4 n5 n6 n7 : PhaseName) p :
  0 <= p < 1 -> p <> 0.97 ->
  n0 <> Unlabelled -> n1 <> Unlabelled -> n2 <> Unlabelled ->
  n3 <> Unlabelled -> n4 <> Unlabelled -> n5 <> Unlabelled ->
  n6 <> Unlabelled -> n7 <> Unlabelled ->
  (if JS.ltb p 0.03 || JS.gtb p 0.97 then n0
   else if JS.geb p 0.03 && JS.ltb p 0.22 then n1
   else if JS.geb p 0.22 && JS.ltb p 0.28 then n2
   else if JS.geb p 0.28 && JS.ltb p 0.47 then n3
   else if JS.geb p 0.47 && JS.ltb p 0.53 then n4
   else if JS.geb p 0.53 && JS.ltb p 0.72 then n5
   else if JS.geb p 0.72 && JS.ltb p 0.78 then n6
   else if JS.geb p 0.78 && JS.ltb p 0.97 then n7
   else Unlabelled) <> Unlabelled.
Proof.
  intros Hr Hne N0 N1 N2 N3 N4 N5 N6 N7.
  destruct (JS.ltb p 0.03 || JS.gtb p 0.97) eqn:E0; [assumption|].
  apply orb_false_iff in E0; destruct E0 as [L U].
  apply ltb_false in L. unfold JS.gtb in U; apply ltb_false in U.
  destruct (JS.geb p 0.03 && JS.ltb p 0.22) eqn:E1; [assumption|].
  apply bucket_missed in E1; [|lra].
  destruct (JS.geb p 0.22 && JS.ltb p 0.28) eqn:E2; [assumption|].
  apply bucket_missed in E2; [|lra].
  destruct (JS.geb p 0.28 && JS.ltb p 0.47) eqn:E3; [assumption|].
  apply bucket_missed in E3; [|lra].
  destruct (JS.geb p 0.47 && JS.ltb p 0.53) eqn:E4; [assumption|].
  apply bucket_missed in E4; [|lra].
  destruct (JS.geb p 0.53 && JS.ltb p 0.72) eqn:E5; [assumption|].
  apply bucket_missed in E5; [|lra].
  destruct (JS.geb p 0.72 && JS.ltb p 0.78) eqn:E6; [assumption|].
  apply bucket_missed in E6; [|lra].
  destruct (JS.geb p 0.78 && JS.ltb p 0.97) eqn:E7; [assumption|].
  apply bucket_missed in E7; [|lra].
  exfalso; lra.
Qed.

(** Away from the single value 0.97 both tables return one of the eight
    names. *)
Lemma moonPhaseText_named s :
  HomeView.normalize (moonOrbitProgress s) <> 0.97 ->
  HomeView.moonPhaseText s <> Unlabelled.
Proof.
  intros Hne; unfold HomeView.moonPhaseText; cbv zeta.
  apply table_total; auto using normalize_range; discriminate.
Qed.

Lemma moonPhaseName_named s :
  App.normalize (moonOrbitProgress s) <> 0.97 ->
  App.moonPhaseName s <> Unlabelled.
Proof.
  intros Hne; unfold App.moonPhaseName; cbv zeta.
  apply table_total; auto using normalize_range; discriminate.
Qed.

(** The seven interior boundaries open the bucket listed below them in
    the observer's table. *)
Lemma moonPhaseText_boundaries :
  HomeView.moonPhaseText (withProgress 0 0.03) = WaxingCrescent /\
  HomeView.moonPhaseText (withProgress 0 0.22) = FirstQuarter /\
  HomeView.moonPhaseText (withProgress 0 0.28) = WaxingGibbous /\
  HomeView.moonPhaseText (withProgress 0 0.47) = FullMoon /\
  HomeView.moonPhaseText (withProgress 0 0.53) = WaningGibbous /\
  HomeView.moonPhaseText (withProgress 0 0.72) = LastQuarter /\
  HomeView.moonPhaseText (withProgress 0 0.78) = WaningCrescent.
Proof.
  unfold HomeView.moonPhaseText; simpl.
  repeat split; rewrite normalize_canonical by lra; settle_comparisons;
    reflexivity.
Qed.

(** C4.  The phase tables are not total: progress 0.97 is neither below
    0.03 nor above 0.97, and the last bucket [0.78, 0.97) excludes it, so
    both tables fall through to the unnamed string after the last [if];
    the same happens for -0.03, which normalises to 0.97. *)
Theorem phase_table_misses_boundary :
  HomeView.moonPhaseText (withProgress 0 0.97) = Unlabelled /\
  App.moonPhaseName (withProgress 0 0.97) = Unlabelled /\
  HomeView.moonPhaseText (withProgress 0 (-0.03)) = Unlabelled.
Proof.
  unfold HomeView.moonPhaseText, App.moonPhaseName; simpl.
  repeat split.
  - rewrite normalize_canonical by lra; settle_comparisons; reflexivity.
  - rewrite App_normalize, normalize_canonical by lra; settle_comparisons;
      reflexivity.
  - rewrite normalize_negative by lra; settle_comparisons; reflexivity.
Qed.

(** The same on binary64 floats: the double nearest 0.97 has an even
    mantissa, so that adding 1 and taking [% 1] give it back unchanged. *)
Lemma phase_table_misses_boundary_binary64 :
  F64.moonPhaseText 0.97 = Unlabelled /\
  F64.moonPhaseText (-0.03) = Unlabelled.
Proof. split; vm_compute; reflexivity. Qed.

(** ** The overlay and the 3D scene *)

(** The angle of [App.angleToSun] is the one [EarthSystem] computes from
    the scaled position. *)
Lemma angleToSun_scale s orbitDist :
  0 < orbitDist ->
  UniverseView.EarthSystem.angleToSun s orbitDist = App.angleToSun s.
Proof.
  intros Hd.
  unfold UniverseView.EarthSystem.angleToSun,
    UniverseView.EarthSystem.earthX, UniverseView.EarthSystem.earthZ,
    App.angleToSun, App.earthX, App.earthZ.
  rewrite <- (atan2_scale (- - sin (earthOrbitProgress s * PI * 2))
                          (- cos (earthOrbitProgress s * PI * 2))
                          orbitDist Hd).
  f_equal; ring.
Qed.

(** The Sun is seen from the Earth in the direction with cosine
    [- cos (2 PI e)] and sine [+ sin (2 PI e)]. *)
Lemma angleToSun_direction s :
  cos (App.angleToSun s) = - cos (earthOrbitProgress s * PI * 2) /\
  sin (App.angleToSun s) = sin (earthOrbitProgress s * PI * 2).
Proof.
  unfold App.angleToSun, App.earthX, App.earthZ.
  rewrite Ropp_involutive.
  apply atan2_unit.
  pose proof (sin2_cos2 (earthOrbitProgress s * PI * 2)) as H.
  unfold Rsqr in H. lra.
Qed.

(** Degrees of a CSS [rotate()] to radians. *)
Lemma degrees_to_radians a : a * 180 / PI * PI / 180 = a.
Proof. pose proof PI_RGT_0; field; lra. Qed.

(** C5.  For every state and every positive orbit and Moon distance the
    overlay and the 3D scene agree: the overlay's Earth angle is the polar
    angle of the Earth's 3D position, the overlay's Moon angle is the
    negated 3D Moon angle, and the directions the two CSS rotations point
    in (x to the right, z downwards) are those of the 3D positions of the
    Earth and of the Moon about the Earth. *)
Theorem overlay_agrees_with_projection s orbitDist moonDist :
  0 < orbitDist ->
  let earthRad := App.earthAngle s * PI / 180 in
  let moonRad := App.moonAngleDeg s * PI / 180 in
  earthRad = JS.atan2 (UniverseView.EarthSystem.earthZ s orbitDist)
                      (UniverseView.EarthSystem.earthX s orbitDist) /\
  moonRad = - UniverseView.EarthSystem.moonAngle s orbitDist /\
  App.moonAngle3D s = UniverseView.EarthSystem.moonAngle s orbitDist /\
  cos earthRad * orbitDist = UniverseView.EarthSystem.earthX s orbitDist /\
  sin earthRad * orbitDist = UniverseView.EarthSystem.earthZ s orbitDist /\
  cos moonRad * moonDist
    = x (UniverseView.EarthSystem.moonLocal s orbitDist moonDist) /\
  sin moonRad * moonDist
    = z (UniverseView.EarthSystem.moonLocal s orbitDist moonDist).
Proof.
  intros Hd earthRad moonRad.
  assert (Ee : earthRad = JS.atan2 (App.earthZ s) (App.earthX s))
    by (unfold earthRad, App.earthAngle; apply degrees_to_radians).
  assert (Em : moonRad = - App.moonAngle3D s).
  { unfold moonRad, App.moonAngleDeg. apply degrees_to_radians. }
  assert (E3 : App.moonAngle3D s = UniverseView.EarthSystem.moonAngle s orbitDist).
  { unfold App.moonAngle3D, UniverseView.EarthSystem.moonAngle.
    now rewrite angleToSun_scale. }
  destruct (atan2_unit (App.earthZ s) (App.earthX s)) as [Hc Hs].
  { unfold App.earthX, App.earthZ.
    pose proof (sin2_cos2 (earthOrbitProgress s * PI * 2)) as H.
    unfold Rsqr in H. lra. }
  repeat split.
  - rewrite Ee.
    unfold UniverseView.EarthSystem.earthX, UniverseView.EarthSystem.earthZ.
    rewrite atan2_scale by assumption. reflexivity.
  - now rewrite Em, E3.
  - exact E3.
  - rewrite Ee, Hc. reflexivity.
  - rewrite Ee, Hs. unfold App.earthZ, UniverseView.EarthSystem.earthZ. ring.
  - rewrite Em, E3, cos_neg. reflexivity.
  - rewrite Em, E3, sin_neg. reflexivity.
Qed.

Lemma overlay_agrees_with_projection_witness :
  0 < 350 /\
  App.moonAngleDeg App.initialState * PI / 180
  = - UniverseView.EarthSystem.moonAngle App.initialState 350.
Proof.
  split; [lra|].
  exact (proj1 (proj2 (overlay_agrees_with_projection
                         App.initialState 350 110 ltac:(lra)))).
Defined.




(** ** The editors and the drag handler keep the state canonical *)





(** The Earth branch: one conditional addition brings the angle fraction of
    (-1/2, 1/2] into [0, 1). *)
Lemma earth_drag_progress b a :
  let raw := JS.atan2 b a / (PI * 2) in
  let progress := if JS.ltb raw 0 then raw + 1 else raw in
  0 <= progress < 1 /\ congruent 1 progress raw.
Proof.
  intros raw progress. pose proof PI_RGT_0 as Hpi.
  pose proof (atan2_bound b a) as [L U].
  assert (Hraw : -1 / 2 < raw <= 1 / 2).
  { unfold raw; split.
    - apply Rmult_lt_reg_r with (PI * 2); [lra|].
      replace (JS.atan2 b a / (PI * 2) * (PI * 2)) with (JS.atan2 b a)
        by (field; lra). lra.
    - apply Rmult_le_reg_r with (PI * 2); [lra|].
      replace (JS.atan2 b a / (PI * 2) * (PI * 2)) with (JS.atan2 b a)
        by (field; lra). lra. }
  unfold progress; destruct (JS.ltb raw 0) eqn:B.
  - apply ltb_true in B. split; [lra|]. exists 1%Z; lra.
  - apply ltb_false in B. split; [lra|]. exists 0%Z; lra.
Qed.

(** The Moon branch: the difference of two angles of (-PI, PI] is less
    than one turn, so the first loop runs at most once and the second never;
    any positive fuel is enough. *)
Lemma moon_drag_progress fuel b a b' a' :
  let raw := (JS.atan2 b a - JS.atan2 b' a') / (PI * 2) in
  exists progress,
    UniverseView.Scene.whileNegative (S fuel) raw = Some progress /\
    UniverseView.Scene.whileAtLeastOne (S fuel) progress = Some progress /\
    0 <= progress < 1 /\ congruent 1 progress raw.
Proof.
  intros raw. pose proof PI_RGT_0 as Hpi.
  pose proof (atan2_bound b a) as [L U].
  pose proof (atan2_bound b' a') as [L' U'].
  assert (Hraw : -1 < raw < 1).
  { unfold raw; split.
    - apply Rmult_lt_reg_r with (PI * 2); [lra|].
      replace ((JS.atan2 b a - JS.atan2 b' a') / (PI * 2) * (PI * 2))
        with (JS.atan2 b a - JS.atan2 b' a') by (field; lra). lra.
    - apply Rmult_lt_reg_r with (PI * 2); [lra|].
      replace ((JS.atan2 b a - JS.atan2 b' a') / (PI * 2) * (PI * 2))
        with (JS.atan2 b a - JS.atan2 b' a') by (field; lra). lra. }
  destruct (Rlt_le_dec raw 0) as [Hneg|Hpos].
  - exists (raw + 1). rewrite whileNegative_once by lra.
    rewrite whileAtLeastOne_none by lra.
    repeat split; try lra. exists 1%Z; lra.
  - exists raw. rewrite whileNegative_none by lra.
    rewrite whileAtLeastOne_none by lra.
    repeat split; try lra. exists 0%Z; lra.
Qed.

(** A drag event, whatever the target, the point and the rendered state:
    with any positive fuel the handler returns; [time] and [date] are
    kept; the dragged body's progress becomes the wrapped angle fraction
    and the other body's progress is kept; without a target, or in the
    mini-map, nothing changes. *)
Lemma drag_outcome fuel target miniMap isMobile state point prev :
  exists s',
    dragUpdate (S fuel) target miniMap isMobile state point prev = Some s' /\
    time s' = time prev /\ date s' = date prev /\
    match target, miniMap with
    | Some earth, false =>
        moonOrbitProgress s' = moonOrbitProgress prev /\
        0 <= earthOrbitProgress s' < 1 /\
        congruent 1 (earthOrbitProgress s')
          (JS.atan2 (z point) (x point) / (PI * 2))
    | Some moon, false =>
        earthOrbitProgress s' = earthOrbitProgress prev /\
        0 <= moonOrbitProgress s' < 1 /\
        congruent 1 (moonOrbitProgress s')
          ((JS.atan2 (z point - UniverseView.Scene.earthZ state isMobile)
                     (x point - UniverseView.Scene.earthX state isMobile)
            - JS.atan2 (- UniverseView.Scene.earthZ state isMobile)
                       (- UniverseView.Scene.earthX state isMobile))
           / (PI * 2))
    | _, _ => s' = prev
    end.
Proof.
  unfold dragUpdate, UniverseView.Scene.handleDragUpdate.
  destruct target as [[|]|]; destruct miniMap;
    try (exists prev; repeat split; reflexivity).
  - destruct (earth_drag_progress (z point) (x point)) as [Hr Hc].
    eexists; split; [reflexivity|]. simpl. auto.
  - destruct (moon_drag_progress fuel
                (z point - UniverseView.Scene.earthZ state isMobile)
                (x point - UniverseView.Scene.earthX state isMobile)
                (- UniverseView.Scene.earthZ state isMobile)
                (- UniverseView.Scene.earthX state isMobile))
      as (progress & E1 & E2 & Hr & Hc).
    cbv zeta. rewrite E1, E2.
    eexists; split; [reflexivity|]. simpl. auto.
Qed.




(** A caveat in binary64.  The Earth branch adds 1 to a negative fraction
    once and, unlike the Moon branch, does not test the sum against 1: for
    a negative angle so small that the sum rounds to 1.0 (as [Math.atan2]
    returns for a drag point a hair off the positive x axis, such as
    [(350, 0, -1e-15)]) the progress it stores is exactly 1.0. *)
Lemma earth_drag_rounds_to_one_binary64 :
  (F64.earthDragProgress (-1e-17) =? 1)%float = true.
Proof. vm_compute; reflexivity. Qed.

(** ** Frame of a drag update *)

(** C10.  A drag update changes only the dragged body's progress: with any
    positive fuel the handler returns, and in the state its patch is merged
    into, [time] and [date] are those of before; dragging the Earth keeps
    [moonOrbitProgress], dragging the Moon keeps [earthOrbitProgress];
    without a drag target, and in the mini-map, the state is unchanged. *)
Theorem drag_changes_only_dragged_body
    fuel target miniMap isMobile state point prev :
  exists s',
    dragUpdate (S fuel) target miniMap isMobile state point prev = Some s' /\
    time s' = time prev /\ date s' = date prev /\
    match target with
    | Some earth => moonOrbitProgress s' = moonOrbitProgress prev
    | Some moon => earthOrbitProgress s' = earthOrbitProgress prev
    | None => s' = prev
    end /\
    (if miniMap then s' = prev else True).
Proof.
  destruct (drag_outcome fuel target miniMap isMobile state point prev)
    as (s' & E & Et & Ed & H).
  exists s'; repeat split; auto.
  - destruct target as [[|]|]; destruct miniMap; subst; tauto.
  - destruct target as [[|]|]; destruct miniMap; subst; tauto.
Qed.

(** ** The editors *)












(** ** The view marker *)


Lemma cos_full_turn a : cos (a + 2 * PI) = cos a.
Proof. rewrite cos_plus, cos_2PI, sin_2PI; ring. Qed.

Lemma sin_full_turn a : sin (a + 2 * PI) = sin a.
Proof. rewrite sin_plus, cos_2PI, sin_2PI; ring. Qed.



(** * Further properties of the code *)

(** ** The clock display and the time editor *)






(** ** How the editors compose *)

(** X2.  The time editor and the date editor touch different fields and
    read neither the other's: applied in either order they give the same
    state.  Each is idempotent, and a parseable date overrides the date
    edit before it. *)
Theorem edits_commute value newDate s :
  App.handleTimeChange value (App.handleDateChange newDate s)
  = App.handleDateChange newDate (App.handleTimeChange value s) /\
  App.handleTimeChange value (App.handleTimeChange value s)
  = App.handleTimeChange value s /\
  App.handleDateChange newDate (App.handleDateChange newDate s)
  = App.handleDateChange newDate s /\
  (forall t,
     App.handleDateChange (Some t) (App.handleDateChange newDate s)
     = App.handleDateChange (Some t) s).
Proof.
  unfold App.handleTimeChange, App.handleDateChange.
  destruct (App.parseTime value) as [[hours|] [minutes|]];
    destruct newDate as [t0|]; simpl;
    try destruct ((0 <=? hours)%Z && (hours <? 24)%Z &&
                  (0 <=? minutes)%Z && (minutes <? 60)%Z);
    repeat split; reflexivity.
Qed.

(** ** The date editor *)

Lemma daysDiff_floor (d o : Z) :
  (0 <= o < msPerDay)%Z -> App.daysDiff (d * msPerDay + o) 0 = IZR d.
Proof.
  intros Ho; unfold App.daysDiff, JS.floor. f_equal.
  apply Zfloor_eq.
  rewrite Z.sub_0_r, plus_IZR, mult_IZR.
  assert (HM : IZR msPerDay = 86400000) by reflexivity.
  assert (0 <= IZR o) by (apply IZR_le; lia).
  assert (IZR o < IZR msPerDay) by (apply IZR_lt; lia).
  rewrite HM in *.
  split.
  - apply Rmult_le_reg_r with 86400000; [lra|].
    replace ((IZR d * 86400000 + IZR o) / 86400000 * 86400000)
      with (IZR d * 86400000 + IZR o) by field. lra.
  - apply Rmult_lt_reg_r with 86400000; [lra|].
    replace ((IZR d * 86400000 + IZR o) / 86400000 * 86400000)
      with (IZR d * 86400000 + IZR o) by field. lra.
Qed.

(** X3.  The date editor reads only the whole days between the reference
    date and the new date: a time value [o] milliseconds into day [d]
    (whatever the hour the date string was parsed to) gives the phases of
    day [d], and the part of a day is rounded down also for dates before the
    reference, so that a value any way into day -1 gives day -1. *)
Theorem date_edit_reads_whole_days (d o : Z) s :
  (0 <= o < msPerDay)%Z ->
  App.daysDiff (d * msPerDay + o) 0 = IZR d /\
  earthOrbitProgress (App.handleDateChange (Some (d * msPerDay + o)%Z) s)
  = earthOrbitProgress (App.handleDateChange (Some (d * msPerDay)%Z) s) /\
  moonOrbitProgress (App.handleDateChange (Some (d * msPerDay + o)%Z) s)
  = moonOrbitProgress (App.handleDateChange (Some (d * msPerDay)%Z) s).
Proof.
  intros Ho. split; [now apply daysDiff_floor|].
  unfold App.handleDateChange; simpl.
  rewrite daysDiff_floor, daysDiff_whole by assumption. auto.
Qed.

(** One hour before the reference midnight is day -1: Earth progress
    364/365. *)
Lemma date_edit_reads_whole_days_witness :
  (0 <= 82800000 < msPerDay)%Z /\
  App.daysDiff (-1 * msPerDay + 82800000) 0 = IZR (-1).
Proof.
  split; [unfold msPerDay; lia|].
  exact (proj1 (date_edit_reads_whole_days (-1) 82800000 App.initialState
                  ltac:(unfold msPerDay; lia))).
Defined.

Lemma daysDiff_shift (t n : Z) :
  App.daysDiff (t + n * msPerDay) 0 = App.daysDiff t 0 + IZR n.
Proof.
  unfold App.daysDiff, JS.floor.
  rewrite <- plus_IZR, <- Zfloor_addz.
  apply (f_equal IZR), (f_equal Zfloor).
  rewrite !Z.sub_0_r, plus_IZR, mult_IZR.
  assert (HM : IZR msPerDay = 86400000) by reflexivity.
  rewrite HM. field.
Qed.

Lemma handleDateChange_progress t s :
  earthOrbitProgress (App.handleDateChange (Some t) s)
  = App.wrapNegative (JS.rem (App.daysDiff t 0 / 365) 1) /\
  moonOrbitProgress (App.handleDateChange (Some t) s)
  = App.wrapNegative (JS.rem (App.daysDiff t 0 / 28) 1).
Proof. split; reflexivity. Qed.

(** X4.  The phases the date editor stores are periodic in the date:
    moving the date by 365 days leaves [earthOrbitProgress] as it is, moving
    it by 28 days leaves [moonOrbitProgress] as it is (every year counts 365
    days: a leap day shifts the Earth's phase by 1/365). *)
Theorem date_edit_periods (t k : Z) s :
  earthOrbitProgress
    (App.handleDateChange (Some (t + (365 * k) * msPerDay)%Z) s)
  = earthOrbitProgress (App.handleDateChange (Some t) s) /\
  moonOrbitProgress
    (App.handleDateChange (Some (t + (28 * k) * msPerDay)%Z) s)
  = moonOrbitProgress (App.handleDateChange (Some t) s).
Proof.
  rewrite (proj1 (handleDateChange_progress (t + 365 * k * msPerDay) s)),
    (proj1 (handleDateChange_progress t s)),
    (proj2 (handleDateChange_progress (t + 28 * k * msPerDay) s)),
    (proj2 (handleDateChange_progress t s)).
  rewrite !daysDiff_shift, !mult_IZR.
  set (d := App.daysDiff t 0).
  split.
  - destruct (resync_phase ((d + 365 * IZR k) / 365)) as [H1 [k1 E1]].
    destruct (resync_phase (d / 365)) as [H2 [k2 E2]].
    apply (unit_interval_unique _ _ (k + k1 - k2)); auto.
    rewrite E1, E2, minus_IZR, plus_IZR. field.
  - destruct (resync_phase ((d + 28 * IZR k) / 28)) as [H1 [k1 E1]].
    destruct (resync_phase (d / 28)) as [H2 [k2 E2]].
    apply (unit_interval_unique _ _ (k + k1 - k2)); auto.
    rewrite E1, E2, minus_IZR, plus_IZR. field.
Qed.

(** ** The clock over whole days *)





(** ** The two phase tables *)

(** X6.  The header's table ([moonPhaseName]) and the sky's table
    ([moonPhaseText]) cut the progress at the same places and name every
    bucket with waxing and waning, and first and last quarter, exchanged;
    New Moon, Full Moon and the unnamed fall-through are common to both. *)
Theorem phase_tables_swapped s :
  App.moonPhaseName s = swapWaxingWaning (HomeView.moonPhaseText s).
Proof.
  unfold App.moonPhaseName, HomeView.moonPhaseText.
  rewrite App_normalize. cbv zeta.
  generalize (HomeView.normalize (moonOrbitProgress s)); intros p.
  destruct (JS.ltb p 0.03 || JS.gtb p 0.97); [reflexivity|].
  destruct (JS.geb p 0.03 && JS.ltb p 0.22); [reflexivity|].
  destruct (JS.geb p 0.22 && JS.ltb p 0.28); [reflexivity|].
  destruct (JS.geb p 0.28 && JS.ltb p 0.47); [reflexivity|].
  destruct (JS.geb p 0.47 && JS.ltb p 0.53); [reflexivity|].
  destruct (JS.geb p 0.53 && JS.ltb p 0.72); [reflexivity|].
  destruct (JS.geb p 0.72 && JS.ltb p 0.78); [reflexivity|].
  destruct (JS.geb p 0.78 && JS.ltb p 0.97); reflexivity.
Qed.





(** ** The sky of the Home view *)

(** The sign of the Sun's height by the hour. *)
Lemma sun_height s :
  0 <= time s < 24 ->
  (6 < time s < 18 -> 0 < SkyContent.sunY s) /\
  (time s < 6 \/ 18 < time s -> SkyContent.sunY s < 0).
Proof.
  intros Ht. pose proof PI_RGT_0 as Hpi.
  unfold SkyContent.sunY, SkyContent.sunAzimuth, SkyContent.radius.
  set (t := time s) in *.
  split; intros H.
  - apply Rmult_lt_0_compat; [|lra]. apply cos_gt_0; nra.
  - destruct H as [H|H].
    + assert (cos ((t - 12) * (PI / 12)) < 0); [|lra].
      rewrite <- cos_neg. apply cos_lt_0; nra.
    + assert (cos ((t - 12) * (PI / 12)) < 0); [|lra].
      apply cos_lt_0; nra.
Qed.

(** X8.  The Sun's path over a day.  For a canonical [time], the Sun is
    above the horizon ([sunY > 0]) exactly between 6:00 and 18:00 and below
    it before 6:00 and after 18:00, as the [isDay] flag says; at 6:00 and
    at 18:00 it is on the horizon, and [isDay] counts 6:00 as day and 18:00
    as night.  The Sun is in the east half of the sky ([x < 0]) before noon
    and in the west half after. *)
Theorem sun_path s :
  0 <= time s < 24 ->
  (6 < time s < 18 -> 0 < SkyContent.sunY s /\ SkyContent.isDay s = true) /\
  (time s < 6 \/ 18 < time s ->
   SkyContent.sunY s < 0 /\ SkyContent.isDay s = false) /\
  (time s = 6 -> SkyContent.sunY s = 0 /\ SkyContent.isDay s = true) /\
  (time s = 18 -> SkyContent.sunY s = 0 /\ SkyContent.isDay s = false) /\
  (0 < time s < 12 -> SkyContent.sunX s < 0) /\
  (12 < time s -> 0 < SkyContent.sunX s).
Proof.
  intros Ht. pose proof PI_RGT_0 as Hpi.
  destruct (sun_height s Ht) as [Hup Hdown].
  unfold SkyContent.sunY, SkyContent.sunX, SkyContent.isDay,
    SkyContent.sunAzimuth, SkyContent.radius in *.
  set (t := time s) in *.
  repeat split.
  - apply Hup; lra.
  - settle_comparisons; reflexivity.
  - apply Hdown; assumption.
  - destruct H as [H|H]; settle_comparisons; reflexivity.
  - rewrite H. replace ((6 - 12) * (PI / 12)) with (- (PI / 2)) by field.
    rewrite cos_neg, cos_PI2. ring.
  - settle_comparisons; reflexivity.
  - rewrite H. replace ((18 - 12) * (PI / 12)) with (PI / 2) by field.
    rewrite cos_PI2. ring.
  - settle_comparisons; reflexivity.
  - intros H. assert (sin ((t - 12) * (PI / 12)) < 0); [|lra].
    apply sin_lt_0_var; nra.
  - intros H. apply Rmult_lt_0_compat; [|lra]. apply sin_gt_0; nra.
Qed.

(** At the epoch, 18:00, the Sun is on the horizon and it is night. *)
Lemma sun_path_witness :
  0 <= time App.initialState < 24 /\
  SkyContent.sunY App.initialState = 0 /\
  SkyContent.isDay App.initialState = false.
Proof.
  assert (H : 0 <= time App.initialState < 24) by (simpl; lra).
  split; [exact H|].
  exact (proj1 (proj2 (proj2 (proj2 (sun_path App.initialState H)))) eq_refl).
Defined.

(** X9.  The Moon against the Sun.  At progress 0 the Moon stands in the
    Sun's direction, at progress 1/2 in the opposite one; so at full moon
    (1/2) the Moon is above the horizon all night, and at progress 0 it is
    above the horizon all day. *)
Theorem moon_against_sun s :
  0 <= time s < 24 ->
  (moonOrbitProgress s = 0 ->
   SkyContent.moonX s * 600 = SkyContent.sunX s * 550 /\
   SkyContent.moonZ s * 600 = SkyContent.sunZ s * 550 /\
   (SkyContent.moonY s - 50) * 350 = SkyContent.sunY s * 280 /\
   (6 < time s < 18 -> 50 < SkyContent.moonY s)) /\
  (moonOrbitProgress s = 1 / 2 ->
   SkyContent.moonX s * 600 = - SkyContent.sunX s * 550 /\
   SkyContent.moonZ s * 600 = - SkyContent.sunZ s * 550 /\
   (SkyContent.moonY s - 50) * 350 = - SkyContent.sunY s * 280 /\
   (time s < 6 \/ 18 < time s -> 50 < SkyContent.moonY s)).
Proof.
  intros Ht.
  destruct (sun_height s Ht) as (Hday & Hnight).
  unfold SkyContent.moonX, SkyContent.moonZ, SkyContent.moonY,
    SkyContent.moonAzimuth, SkyContent.moonOrbitAngle,
    SkyContent.sunX, SkyContent.sunZ, SkyContent.sunY, SkyContent.radius in *.
  split; intros E; rewrite E.
  - replace (SkyContent.sunAzimuth s + 0 * PI * 2)
      with (SkyContent.sunAzimuth s) by ring.
    repeat split; try ring.
    intros H; pose proof (Hday H) as Hy. lra.
  - replace (SkyContent.sunAzimuth s + 1 / 2 * PI * 2)
      with (SkyContent.sunAzimuth s + PI) by field.
    rewrite neg_sin, neg_cos.
    repeat split; try ring.
    intros H; pose proof (Hnight H) as Hy. lra.
Qed.

(** Full moon at the epoch hour. *)
Lemma moon_against_sun_witness :
  0 <= time (withProgress 0 (1 / 2)) < 24 /\
  moonOrbitProgress (withProgress 0 (1 / 2)) = 1 / 2 /\
  SkyContent.moonX (withProgress 0 (1 / 2)) * 600
  = - SkyContent.sunX (withProgress 0 (1 / 2)) * 550.
Proof.
  assert (H : 0 <= time (withProgress 0 (1 / 2)) < 24) by (simpl; lra).
  split; [exact H|split; [reflexivity|]].
  exact (proj1 (proj2 (moon_against_sun (withProgress 0 (1 / 2)) H) eq_refl)).
Defined.

(** The ten pieces the thresholds of the tables cut [0, 1) into. *)
Lemma progress_cases p :
  0 <= p < 1 ->
  p < 0.03 \/ 0.03 <= p < 0.22 \/ 0.22 <= p < 0.28 \/ 0.28 <= p < 0.47 \/
  0.47 <= p < 0.53 \/ 0.53 <= p < 0.72 \/ 0.72 <= p < 0.78 \/
  0.78 <= p < 0.97 \/ p = 0.97 \/ 0.97 < p.
Proof.
  intros Hp.
  destruct (Rlt_le_dec p 0.03); [lra|].
  destruct (Rlt_le_dec p 0.22); [lra|].
  destruct (Rlt_le_dec p 0.28); [lra|].
  destruct (Rlt_le_dec p 0.47); [lra|].
  destruct (Rlt_le_dec p 0.53); [lra|].
  destruct (Rlt_le_dec p 0.72); [lra|].
  destruct (Rlt_le_dec p 0.78); [lra|].
  destruct (Rlt_le_dec p 0.97); [lra|].
  destruct (Rle_lt_dec p 0.97); lra.
Qed.

(** X10.  What is drawn for a Moon that is not hidden.  Its label is never
    New Moon; a Waxing Crescent is shown only from 18:00 to midnight; and
    the black half sphere laid over it goes with the label: on the left for
    Waxing Crescent (x = -13) and First Quarter (-9), on the right for Last
    Quarter (9) and Waning Crescent (13), and none for the gibbous and full
    phases and for the unlabelled progress 0.97. *)
Theorem visible_moon_label_and_shadow s :
  SkyContent.moonHidden s = false ->
  HomeView.moonPhaseText s <> NewMoon /\
  (HomeView.moonPhaseText s = WaxingCrescent -> 18 <= time s < 24) /\
  SkyContent.shadow s =
    match HomeView.moonPhaseText s with
    | WaxingCrescent => Some (-13, 0)
    | FirstQuarter => Some (-9, 0)
    | LastQuarter => Some (9, PI)
    | WaningCrescent => Some (13, PI)
    | _ => None
    end.
Proof.
  unfold SkyContent.moonHidden, SkyContent.shadow, HomeView.moonPhaseText.
  cbv zeta.
  pose proof (normalize_range (moonOrbitProgress s)) as Hr.
  generalize dependent (HomeView.normalize (moonOrbitProgress s)).
  intros p Hr.
  destruct (progress_cases p Hr)
    as [C|[C|[C|[C|[C|[C|[C|[C|[C|C]]]]]]]]];
    settle_comparisons; intros Hh; try discriminate Hh;
    repeat split; try discriminate; try reflexivity;
    try (intros E; discriminate E).
  all: destruct (JS.leb 18 (time s)) eqn:B1; [|discriminate Hh].
  all: destruct (JS.ltb (time s) 24) eqn:B2; [|discriminate Hh].
  all: apply leb_true in B1; apply ltb_true in B2; lra.
Qed.

(** A First Quarter Moon at the epoch. *)
Lemma visible_moon_label_and_shadow_witness :
  SkyContent.moonHidden (withProgress 0 (1 / 4)) = false /\
  SkyContent.shadow (withProgress 0 (1 / 4)) =
    match HomeView.moonPhaseText (withProgress 0 (1 / 4)) with
    | WaxingCrescent => Some (-13, 0)
    | FirstQuarter => Some (-9, 0)
    | LastQuarter => Some (9, PI)
    | WaningCrescent => Some (13, PI)
    | _ => None
    end.
Proof.
  assert (H : SkyContent.moonHidden (withProgress 0 (1 / 4)) = false).
  { unfold SkyContent.moonHidden; simpl.
    rewrite normalize_canonical by lra. settle_comparisons. reflexivity. }
  split; [exact H|].
  exact (proj2 (proj2 (visible_moon_label_and_shadow _ H))).
Defined.

(** [distFromNew] is the smaller of the distances of the normalised
    progress to 0 and to 1. *)
Lemma distFromNew_cases s :
  HomeView.normalize (moonOrbitProgress s)
  <= 1 - HomeView.normalize (moonOrbitProgress s) /\
  SkyContent.distFromNew s = HomeView.normalize (moonOrbitProgress s) \/
  1 - HomeView.normalize (moonOrbitProgress s)
  < HomeView.normalize (moonOrbitProgress s) /\
  SkyContent.distFromNew s = 1 - HomeView.normalize (moonOrbitProgress s).
Proof.
  unfold SkyContent.distFromNew, Rmin.
  destruct (Rle_dec (HomeView.normalize (moonOrbitProgress s))
              (1 - HomeView.normalize (moonOrbitProgress s)));
    [left|right]; split; lra.
Qed.



(** ** The constellations *)

(** X12.  The night sky is never without a constellation and never shows
    more than two: for every month of the year, one or two of the four are
    rendered by night, and none by day.  A rendered constellation is back at
    the same place after 24 hours and after a full orbit of the Earth. *)
Theorem constellations_by_month state month :
  (1 <= month <= 12)%Z ->
  (Constellations.isDay state = true ->
   Constellations.rendered state month = []) /\
  (Constellations.isDay state = false ->
   (1 <= List.length (Constellations.rendered state month) <= 2)%nat) /\
  (forall c t e m d,
     Constellations.groupPosition (mkState (t + 24) d e m) c
     = Constellations.groupPosition (mkState t d e m) c /\
     Constellations.groupPosition (mkState t d (e + 1) m) c
     = Constellations.groupPosition (mkState t d e m) c).
Proof.
  intros Hm. unfold Constellations.rendered.
  split; [intros E; now rewrite E|split].
  - intros E; rewrite E.
    assert (C : (month = 1 \/ month = 2 \/ month = 3 \/ month = 4 \/
                 month = 5 \/ month = 6 \/ month = 7 \/ month = 8 \/
                 month = 9 \/ month = 10 \/ month = 11 \/ month = 12)%Z)
      by lia.
    repeat (destruct C as [C|C]; [subst month; simpl; lia|]).
    subst month; simpl; lia.
  - intros c t e m d.
    unfold Constellations.groupPosition, Constellations.azimuth,
      Constellations.hourAngle, Constellations.baseAzimuth; simpl.
    split.
    + replace (Constellations.baseAngle c + e * PI * 2 - (t + 24) / 24 * PI * 2)
        with (Constellations.baseAngle c + e * PI * 2 - t / 24 * PI * 2
              - 2 * PI) by field.
      set (a := Constellations.baseAngle c + e * PI * 2 - t / 24 * PI * 2).
      rewrite <- (sin_full_turn (a - 2 * PI)), <- (cos_full_turn (a - 2 * PI)).
      replace (a - 2 * PI + 2 * PI) with a by ring. reflexivity.
    + replace (Constellations.baseAngle c + (e + 1) * PI * 2 - t / 24 * PI * 2)
        with (Constellations.baseAngle c + e * PI * 2 - t / 24 * PI * 2
              + 2 * PI) by field.
      rewrite sin_full_turn, cos_full_turn. reflexivity.
Qed.

(** January at the epoch hour (night): Cassiopeia alone. *)
Lemma constellations_by_month_witness :
  (1 <= 1 <= 12)%Z /\
  Constellations.isDay App.initialState = false /\
  (1 <= List.length (Constellations.rendered App.initialState 1) <= 2)%nat.
Proof.
  assert (E : Constellations.isDay App.initialState = false).
  { unfold Constellations.isDay; simpl. settle_comparisons. reflexivity. }
  split; [lia|split; [exact E|]].
  exact (proj1 (proj2 (constellations_by_month App.initialState 1
                         ltac:(lia))) E).
Defined.

(** ** The walking character *)

(** X13.  The character never leaves the field: after every frame,
    whatever the keys, the frame time and the position before, its x and z
    lie within the boundary of 200 on either side (a step across an edge
    puts it on the opposite edge), and its height is unchanged. *)
Theorem character_stays_in_field keysPressed delta c :
  let c' := Character3D.frame keysPressed delta c in
  -200 <= x (Character3D.position c') <= 200 /\
  -200 <= z (Character3D.position c') <= 200 /\
  y (Character3D.position c') = y (Character3D.position c).
Proof.
  unfold Character3D.frame. cbv zeta.
  set (px := x (Character3D.position c) + _).
  set (pz := z (Character3D.position c) + _).
  unfold JS.gtb.
  destruct (JS.ltb px (- 200)) eqn:A1; destruct (JS.ltb pz (- 200)) eqn:B1;
    [apply ltb_true in A1 | apply ltb_true in A1
    | apply ltb_false in A1 | apply ltb_false in A1];
    [apply ltb_true in B1 | apply ltb_false in B1
    | apply ltb_true in B1 | apply ltb_false in B1].
  all: repeat match goal with
         | |- context [JS.ltb ?a ?b] =>
             let E := fresh "E" in
             destruct (JS.ltb a b) eqn:E;
             [apply ltb_true in E | apply ltb_false in E]
         end;
       simpl; repeat split; lra.
Qed.

(** X14.  Walking.  In every frame the right arm and leg carry the
    opposite angle of the left ones, and each leg swings with the arm of
    its side.  With no key down the limbs are at rest, the walk clock
    stands still and a character inside the field stays where it is.  With
    W and S down together (and neither A nor D) the two steps cancel, so a
    character inside the field stays where it is, yet it is animated as
    walking: the walk clock runs on by [10 * delta]. *)
Theorem character_walk keysPressed delta c :
  let c' := Character3D.frame keysPressed delta c in
  let inside :=
    -200 <= x (Character3D.position c) <= 200 /\
    -200 <= z (Character3D.position c) <= 200 in
  Character3D.rightArm c' = - Character3D.leftArm c' /\
  Character3D.rightLeg c' = - Character3D.leftLeg c' /\
  Character3D.leftLeg c' = Character3D.leftArm c' /\
  (keysPressed "w"%string = false -> keysPressed "s"%string = false ->
   keysPressed "a"%string = false -> keysPressed "d"%string = false ->
   Character3D.leftArm c' = 0 /\
   Character3D.walkTime c' = Character3D.walkTime c /\
   Character3D.targetRotation c' = Character3D.targetRotation c /\
   (inside ->
    x (Character3D.position c') = x (Character3D.position c) /\
    z (Character3D.position c') = z (Character3D.position c))) /\
  (keysPressed "w"%string = true -> keysPressed "s"%string = true ->
   keysPressed "a"%string = false -> keysPressed "d"%string = false ->
   Character3D.walkTime c' = Character3D.walkTime c + delta * 10 /\
   Character3D.leftArm c'
   = sin (Character3D.walkTime c + delta * 10) * 0.5 /\
   (inside ->
    x (Character3D.position c') = x (Character3D.position c) /\
    z (Character3D.position c') = z (Character3D.position c))).
Proof.
  intros c' inside. subst c' inside.
  unfold Character3D.frame, JS.gtb; cbv zeta.
  destruct (keysPressed "w"%string), (keysPressed "s"%string),
    (keysPressed "a"%string), (keysPressed "d"%string); cbn [orb].
  all: repeat (match goal with
               | |- context [JS.ltb ?a ?b] =>
                   lazymatch a with context [JS.ltb] => fail | _ => idtac end;
                   lazymatch b with context [JS.ltb] => fail | _ => idtac end;
                   let E := fresh "E" in
                   destruct (JS.ltb a b) eqn:E;
                   [apply ltb_true in E | apply ltb_false in E]
               end; cbv beta iota).
  all: cbn [Character3D.rightArm Character3D.leftArm Character3D.rightLeg
            Character3D.leftLeg Character3D.walkTime
            Character3D.targetRotation Character3D.position x z].
  all: repeat split; intros; try discriminate; try reflexivity;
       try (rewrite neg_sin); try lra.
Qed.

(** No key down, from the initial pose: at rest. *)
Lemma character_walk_witness :
  Character3D.leftArm
    (Character3D.frame (fun _ => false) (1 / 60) Character3D.initial) = 0.
Proof.
  exact (proj1 (proj1 (proj2 (proj2 (proj2
           (character_walk (fun _ => false) (1 / 60) Character3D.initial))))
           eq_refl eq_refl eq_refl eq_refl)).
Defined.

(** Splits the pairs that the boundary tests of [frame] compute. *)
Ltac open_pairs :=
  unfold Character3D.frame; cbv zeta;
  repeat match goal with
    | |- context [match ?e with pair _ _ => _ end] => destruct e
    end;
  cbn [Character3D.targetRotation Character3D.rotationY].

Lemma frame_rotation keysPressed delta c :
  Character3D.rotationY (Character3D.frame keysPressed delta c)
  = Character3D.lerp (Character3D.rotationY c)
      (Character3D.targetRotation (Character3D.frame keysPressed delta c))
      0.1.
Proof. open_pairs. reflexivity. Qed.

Lemma frame_target_settled keysPressed delta c c' :
  Character3D.targetRotation c'
  = Character3D.targetRotation (Character3D.frame keysPressed delta c) ->
  Character3D.targetRotation (Character3D.frame keysPressed delta c')
  = Character3D.targetRotation (Character3D.frame keysPressed delta c).
Proof.
  open_pairs. intros E.
  destruct (keysPressed "w"%string), (keysPressed "s"%string),
    (keysPressed "a"%string), (keysPressed "d"%string);
    solve [reflexivity | exact E].
Qed.

(** X15.  Turning.  While the same keys are held the target heading is
    settled after the first frame, and the character's heading closes in on
    it geometrically: each frame leaves nine tenths of the remaining angle,
    so the heading never overshoots the target. *)
Theorem character_turns keysPressed delta c n :
  let target :=
    Character3D.targetRotation (Character3D.frame keysPressed delta c) in
  Character3D.targetRotation (frames (S n) keysPressed delta c) = target /\
  Character3D.rotationY (frames n keysPressed delta c) - target
  = 0.9 ^ n * (Character3D.rotationY c - target).
Proof.
  intros target. induction n as [|n [IHt IHr]].
  - split; [reflexivity|]. simpl. ring.
  - assert (Et : Character3D.targetRotation
                   (frames (S (S n)) keysPressed delta c) = target).
    { change (frames (S (S n)) keysPressed delta c)
        with (Character3D.frame keysPressed delta
                (frames (S n) keysPressed delta c)).
      now apply frame_target_settled. }
    split; [exact Et|].
    change (frames (S n) keysPressed delta c)
      with (Character3D.frame keysPressed delta
              (frames n keysPressed delta c)) in *.
    rewrite frame_rotation, IHt. unfold Character3D.lerp.
    replace ((1 - 0.1) * Character3D.rotationY (frames n keysPressed delta c)
             + 0.1 * target - target)
      with (0.9 * (Character3D.rotationY (frames n keysPressed delta c)
                   - target)) by lra.
    rewrite IHr. simpl. ring.
Qed.

(** ** Sessions: every sequence of events *)








(** X17.  Pointer events act only through a drag.  Pointer moves with no
    drag in progress, and all pointer events in Home mode, leave the session
    as it is; releasing the pointer or leaving the plane ends the drag
    without touching the celestial state and gives the camera controls
    back, and the moves that follow do nothing. *)
Theorem pointer_acts_only_in_a_drag fuel isMobile st :
  (dragTarget st = None ->
   forall points,
     run fuel isMobile (map (fun p => Pointer (PointerMove p)) points) st
     = Some st) /\
  (viewMode st = HOME ->
   forall events, run fuel isMobile (map Pointer events) st = Some st) /\
  (viewMode st = UNIVERSE ->
   forall points,
     let released := mkSession UNIVERSE (celestialState st) None in
     run fuel isMobile
       (Pointer PointerUp :: map (fun p => Pointer (PointerMove p)) points) st
     = Some released /\
     run fuel isMobile
       (Pointer PointerLeave :: map (fun p => Pointer (PointerMove p)) points)
       st
     = Some released /\
     UniverseView.Scene.controlsEnabled (dragTarget released) = true).
Proof.
  assert (Moves : forall st0, dragTarget st0 = None ->
            forall points,
              run fuel isMobile
                (map (fun p => Pointer (PointerMove p)) points) st0
              = Some st0).
  { intros st0 T points; induction points as [|p rest IH];
      [reflexivity|].
    cbn [map run step]. destruct (viewMode st0); [exact IH|].
    unfold pointerEvent. rewrite T. exact IH. }
  split; [exact (Moves st)|split].
  - intros V events; induction events as [|e rest IH]; [reflexivity|].
    cbn [map run step]. rewrite V. exact IH.
  - intros V points released.
    split; [|split; [|reflexivity]].
    + cbn [run step]. rewrite V. cbn [pointerEvent].
      unfold UniverseView.Scene.handleEndDrag. rewrite V.
      now apply Moves.
    + cbn [run step]. rewrite V. cbn [pointerEvent].
      unfold UniverseView.Scene.handleEndDrag. rewrite V.
      now apply Moves.
Qed.

(** A release in Universe mode. *)
Lemma pointer_acts_only_in_a_drag_witness :
  viewMode (mkSession UNIVERSE App.initialState (Some earth)) = UNIVERSE /\
  run 1 false [Pointer PointerUp]
    (mkSession UNIVERSE App.initialState (Some earth))
  = Some (mkSession UNIVERSE App.initialState None).
Proof.
  split; [reflexivity|].
  exact (proj1 (proj2 (proj2 (pointer_acts_only_in_a_drag 1 false
                  (mkSession UNIVERSE App.initialState (Some earth))))
                eq_refl [])).
Defined.

(** ** Where a dragged Earth is drawn *)

(** For any point but the origin, at distance [r]. *)
Lemma atan2_direction b a r :
  0 < r -> r * r = a * a + b * b ->
  cos (JS.atan2 b a) * r = a /\ sin (JS.atan2 b a) * r = b.
Proof.
  intros Hr E.
  replace (JS.atan2 b a) with (JS.atan2 (b / r) (a / r)).
  2:{ rewrite <- (atan2_scale (b / r) (a / r) r Hr).
      f_equal; field; lra. }
  destruct (atan2_unit (b / r) (a / r)) as [Hc Hs].
  { replace (a / r * (a / r) + b / r * (b / r))
      with ((a * a + b * b) / (r * r)) by (field; lra).
    rewrite <- E; field; lra. }
  rewrite Hc, Hs; split; field; lra.
Qed.

(** X18.  An Earth drag reads the direction of the pointer from the Sun
    and nothing else: any point on the same ray gives the same state.  And
    the Earth is then drawn at the mirror image of that direction: for a
    pointer at [(x, z)], at distance [r] from the Sun, the Earth appears on
    its orbit at [(x, -z) * orbitDist / r]. *)
Theorem earth_drag_lands_on_mirror_image
    fuel isMobile state point prev r orbitDist :
  0 < r -> r * r = x point * x point + z point * z point ->
  exists s',
    dragUpdate fuel (Some earth) false isMobile state point prev = Some s' /\
    UniverseView.EarthSystem.earthX s' orbitDist * r = x point * orbitDist /\
    UniverseView.EarthSystem.earthZ s' orbitDist * r
    = - z point * orbitDist /\
    (forall k height,
       0 < k ->
       dragUpdate fuel (Some earth) false isMobile state
         (mkVector3 (x point * k) height (z point * k)) prev = Some s').
Proof.
  intros Hr E. pose proof PI_RGT_0 as Hpi.
  unfold dragUpdate, UniverseView.Scene.handleDragUpdate.
  eexists; split; [reflexivity|].
  destruct (atan2_direction (z point) (x point) r Hr E) as [Hc Hs].
  unfold UniverseView.EarthSystem.earthX, UniverseView.EarthSystem.earthZ.
  cbn [App.onChange merge orElse UniverseView.Scene.earthPatch
       p_earthOrbitProgress earthOrbitProgress].
  set (a := JS.atan2 (z point) (x point)) in *.
  assert (Ea : cos ((if JS.ltb (a / (PI * 2)) 0
                     then a / (PI * 2) + 1 else a / (PI * 2)) * PI * 2)
               = cos a /\
               sin ((if JS.ltb (a / (PI * 2)) 0
                     then a / (PI * 2) + 1 else a / (PI * 2)) * PI * 2)
               = sin a).
  { destruct (JS.ltb (a / (PI * 2)) 0).
    - replace ((a / (PI * 2) + 1) * PI * 2) with (a + 2 * PI) by (field; lra).
      now rewrite cos_full_turn, sin_full_turn.
    - replace (a / (PI * 2) * PI * 2) with a by (field; lra). auto. }
  destruct Ea as [Ec Es]. rewrite Ec, Es.
  split; [|split].
  - rewrite <- Hc. ring.
  - rewrite <- Hs. ring.
  - intros k height Hk. cbn [x z].
    rewrite atan2_scale by assumption. reflexivity.
Qed.

(** A pointer straight "below" the Sun, at (0, 0, 100): the Earth is drawn
    straight "above" it. *)
Lemma earth_drag_lands_on_mirror_image_witness :
  0 < 100 /\
  100 * 100 = x (mkVector3 0 0 100) * x (mkVector3 0 0 100)
              + z (mkVector3 0 0 100) * z (mkVector3 0 0 100) /\
  exists s',
    dragUpdate 0 (Some earth) false false App.initialState
      (mkVector3 0 0 100) App.initialState = Some s' /\
    UniverseView.EarthSystem.earthZ s' 350 * 100 = - 100 * 350.
Proof.
  assert (H1 : 0 < 100) by lra.
  assert (H2 : 100 * 100 = x (mkVector3 0 0 100) * x (mkVector3 0 0 100)
                           + z (mkVector3 0 0 100) * z (mkVector3 0 0 100))
    by (simpl; lra).
  split; [exact H1|split; [exact H2|]].
  destruct (earth_drag_lands_on_mirror_image 0 false App.initialState
              (mkVector3 0 0 100) App.initialState 100 350 H1 H2)
    as (s' & E & _ & Ez & _).
  exists s'. split; [exact E|exact Ez].
Defined.

(** ** Orbits *)

Lemma circle_point a d :
  cos a * d * (cos a * d) + sin a * d * (sin a * d) = d * d.
Proof.
  pose proof (sin2_cos2 a) as H; unfold Rsqr in H.
  replace (cos a * d * (cos a * d) + sin a * d * (sin a * d))
    with ((sin a * sin a + cos a * cos a) * (d * d)) by ring.
  rewrite H; ring.
Qed.

Lemma closed_line (f : nat -> Vector3) n O :
  f (S n) = f 0%nat ->
  last (map f (seq 0 (S (S n)))) O = hd O (map f (seq 0 (S (S n)))).
Proof.
  intros E. rewrite (seq_S (S n)), map_app. cbn [map]. rewrite last_last.
  cbn [seq map hd Nat.add]. exact E.
Qed.

(** X19.  The bodies keep to their orbits.  In every state the Earth is
    at distance [orbitDist] from the Sun and the Moon at distance
    [moonDist] from the Earth, as are all the vertices of the two orbit
    lines, which lie in the plane [y = 0] and close up: their last vertex is
    their first. *)
Theorem bodies_on_their_orbits s orbitDist moonDist isMobile :
  let E := UniverseView.EarthSystem.groupPosition s orbitDist in
  let M := UniverseView.EarthSystem.moonLocal s orbitDist moonDist in
  let moonLine := UniverseView.EarthSystem.moonOrbitLine moonDist in
  let earthLine := UniverseView.Scene.earthOrbitLine isMobile in
  let O := mkVector3 0 0 0 in
  x E * x E + z E * z E = orbitDist * orbitDist /\
  x M * x M + z M * z M = moonDist * moonDist /\
  (forall P, In P moonLine ->
             x P * x P + z P * z P = moonDist * moonDist /\ y P = 0) /\
  (forall P, In P earthLine ->
             x P * x P + z P * z P
             = UniverseView.Scene.EARTH_DIST isMobile
               * UniverseView.Scene.EARTH_DIST isMobile /\ y P = 0) /\
  last moonLine O = hd O moonLine /\
  last earthLine O = hd O earthLine.
Proof.
  cbv zeta.
  split; [|split; [|split; [|split; [|split]]]].
  - unfold UniverseView.EarthSystem.groupPosition,
      UniverseView.EarthSystem.earthX, UniverseView.EarthSystem.earthZ.
    cbn [x z].
    rewrite <- (circle_point (earthOrbitProgress s * PI * 2) orbitDist). ring.
  - unfold UniverseView.EarthSystem.moonLocal. cbn [x z].
    rewrite <- (circle_point
                  (UniverseView.EarthSystem.moonAngle s orbitDist) moonDist).
    ring.
  - intros P HP. unfold UniverseView.EarthSystem.moonOrbitLine in HP.
    apply in_map_iff in HP. destruct HP as (i & EP & _). subst P.
    cbn [x y z]. split; [apply circle_point|reflexivity].
  - intros P HP. unfold UniverseView.Scene.earthOrbitLine in HP.
    apply in_map_iff in HP. destruct HP as (i & EP & _). subst P.
    cbn [x y z]. split; [apply circle_point|reflexivity].
  - unfold UniverseView.EarthSystem.moonOrbitLine.
    apply (closed_line _ 63). cbv beta.
    assert (H64 : INR 64 = 64) by (rewrite INR_IZR_INZ; reflexivity).
    rewrite H64. change (INR 0) with 0.
    replace (64 / 64 * PI * 2) with (0 / 64 * PI * 2 + 2 * PI) by field.
    rewrite cos_full_turn, sin_full_turn. reflexivity.
  - unfold UniverseView.Scene.earthOrbitLine.
    apply (closed_line _ 127). cbv beta.
    assert (H128 : INR 128 = 128) by (rewrite INR_IZR_INZ; reflexivity).
    rewrite H128. change (INR 0) with 0.
    replace (128 / 128 * PI * 2) with (0 / 128 * PI * 2 + 2 * PI) by field.
    rewrite cos_full_turn, sin_full_turn. reflexivity.
Qed.

(** X20.  Where the Moon is placed about the Earth.  With the Earth at
    progress [e] and the Moon at progress [m], the Moon's offset from the
    Earth is [- moonDist * (cos, sin)] of the angle [2 PI (e - m)].  At
    [m = 0] its x coordinate points from the Earth to the Sun but its z
    coordinate away from it: the Moon stands between the Earth and the
    Sun only where the Earth is on the x axis. *)
Theorem moon_offset s orbitDist moonDist :
  0 < orbitDist ->
  let M := UniverseView.EarthSystem.moonLocal s orbitDist moonDist in
  let angle := (earthOrbitProgress s - moonOrbitProgress s) * PI * 2 in
  x M = - cos angle * moonDist /\
  z M = - sin angle * moonDist /\
  (moonOrbitProgress s = 0 ->
   x M * orbitDist = - UniverseView.EarthSystem.earthX s orbitDist * moonDist /\
   z M * orbitDist = UniverseView.EarthSystem.earthZ s orbitDist * moonDist).
Proof.
  intros Hd M angle. subst M angle.
  unfold UniverseView.EarthSystem.moonLocal, UniverseView.EarthSystem.moonAngle.
  cbn [x z]. rewrite angleToSun_scale by assumption.
  destruct (angleToSun_direction s) as [Hc Hs].
  rewrite cos_plus, sin_plus, Hc, Hs.
  replace ((earthOrbitProgress s - moonOrbitProgress s) * PI * 2)
    with (earthOrbitProgress s * PI * 2 - moonOrbitProgress s * PI * 2)
    by ring.
  rewrite cos_minus, sin_minus.
  split; [ring|split; [ring|]].
  intros E0. rewrite E0.
  replace (0 * PI * 2) with 0 by ring. rewrite cos_0, sin_0.
  unfold UniverseView.EarthSystem.earthX, UniverseView.EarthSystem.earthZ.
  split; ring.
Qed.

(** The Earth a quarter of the way round, the Moon at progress 0. *)
Lemma moon_offset_witness :
  0 < 350 /\
  moonOrbitProgress (withProgress (1 / 4) 0) = 0 /\
  z (UniverseView.EarthSystem.moonLocal (withProgress (1 / 4) 0) 350 110) * 350
  = UniverseView.EarthSystem.earthZ (withProgress (1 / 4) 0) 350 * 110.
Proof.
  assert (H : 0 < 350) by lra.
  split; [exact H|split; [reflexivity|]].
  exact (proj2 (proj2 (proj2 (moon_offset (withProgress (1 / 4) 0) 350 110 H))
                 eq_refl)).
Defined.

(** ** The push of the Moon's light *)

(** X21.  The light is pushed towards the camera's line of sight exactly
    for the new moon and the two crescents, never for a gibbous or full
    moon; the scale of the push is positive and at most 1.15, which it
    reaches at the exact new moon. *)
Theorem moon_light_push s :
  (SkyContent.pushScale s = None <-> 0.25 <= SkyContent.distFromNew s) /\
  (forall v, SkyContent.pushScale s = Some v ->
             0 < v <= 1.15 /\ (SkyContent.distFromNew s = 0 -> v = 1.15)) /\
  (0.28 <= HomeView.normalize (moonOrbitProgress s) < 0.72 ->
   SkyContent.pushScale s = None) /\
  (HomeView.normalize (moonOrbitProgress s) < 0.22 \/
   0.78 <= HomeView.normalize (moonOrbitProgress s) ->
   exists v, SkyContent.pushScale s = Some v).
Proof.
  pose proof (distFromNew_cases s) as Hp.
  pose proof (normalize_range (moonOrbitProgress s)) as Hr.
  unfold SkyContent.pushScale.
  set (d := SkyContent.distFromNew s) in *.
  set (p := HomeView.normalize (moonOrbitProgress s)) in *.
  assert (Hd : 0 <= d <= 1 / 2) by (destruct Hp as [[? E]|[? E]]; lra).
  split; [|split; [|split]].
  - destruct (JS.ltb d 0.25) eqn:B;
      [apply ltb_true in B | apply ltb_false in B]; split; intros H;
      try discriminate; try reflexivity; lra.
  - intros v Hv.
    destruct (JS.ltb d 0.25) eqn:B; [|discriminate Hv].
    apply ltb_true in B. injection Hv as <-. cbv zeta.
    assert (Hb : 0 < 1 - d / 0.25 <= 1) by lra.
    assert (Hpos : 0 < Rpower (1 - d / 0.25) 0.6) by apply exp_pos.
    assert (Hle : Rpower (1 - d / 0.25) 0.6 <= 1).
    { destruct Hb as [Hb0 [Hb1|Hb1]].
      - left. unfold Rpower.
        assert (Hln : ln (1 - d / 0.25) < 0).
        { rewrite <- ln_1. now apply ln_increasing. }
        apply Rlt_le_trans with (exp 0); [|rewrite exp_0; lra].
        apply exp_increasing. nra.
      - rewrite Hb1. unfold Rpower. rewrite ln_1, Rmult_0_r, exp_0. lra. }
    split; [lra|].
    intros E0. rewrite E0.
    replace (1 - 0 / 0.25) with 1 by lra.
    unfold Rpower. rewrite ln_1, Rmult_0_r, exp_0. ring.
  - intros H. destruct (JS.ltb d 0.25) eqn:B; [|reflexivity].
    apply ltb_true in B. exfalso.
    destruct Hp as [[? E]|[? E]]; rewrite E in B; lra.
  - intros H. destruct (JS.ltb d 0.25) eqn:B; [eauto|].
    apply ltb_false in B. exfalso.
    destruct Hp as [[? E]|[? E]]; rewrite E in B; lra.
Qed.

(** A full moon is lit without the push. *)
Lemma moon_light_push_witness :
  0.28 <= HomeView.normalize (moonOrbitProgress (withProgress 0 (1 / 2)))
  < 0.72 /\
  SkyContent.pushScale (withProgress 0 (1 / 2)) = None.
Proof.
  assert (H : 0.28
              <= HomeView.normalize (moonOrbitProgress (withProgress 0 (1 / 2)))
              < 0.72).
  { simpl. rewrite normalize_canonical; lra. }
  split; [exact H|].
  exact (proj1 (proj2 (proj2 (moon_light_push (withProgress 0 (1 / 2))))) H).
Defined.

(** ** Where a dragged Moon is drawn *)

(** The value the two loops of the Moon branch leave: the angle fraction
    itself, or one more. *)
Lemma moon_drag_value fuel b a b' a' :
  let raw := (JS.atan2 b a - JS.atan2 b' a') / (PI * 2) in
  exists progress,
    UniverseView.Scene.whileNegative (S fuel) raw = Some progress /\
    UniverseView.Scene.whileAtLeastOne (S fuel) progress = Some progress /\
    (progress = raw \/ progress = raw + 1).
Proof.
  intros raw. pose proof PI_RGT_0 as Hpi.
  pose proof (atan2_bound b a) as [L U].
  pose proof (atan2_bound b' a') as [L' U'].
  assert (E : raw * (PI * 2) = JS.atan2 b a - JS.atan2 b' a')
    by (unfold raw; field; lra).
  assert (Hraw : -1 < raw < 1) by (split; nra).
  destruct (Rlt_le_dec raw 0) as [Hneg|Hpos].
  - exists (raw + 1). rewrite whileNegative_once by lra.
    rewrite whileAtLeastOne_none by lra. auto.
  - exists raw. rewrite whileNegative_none by lra.
    rewrite whileAtLeastOne_none by lra. auto.
Qed.

(** X22.  A Moon drag, for a pointer anywhere but on the Earth position
    [(earthX, earthZ)] the handler computes, at distance [r] from it.
    With [c] and [s] the cosine and sine of the Earth's orbit angle, the
    Moon is then drawn from the Earth in the direction
    [((c*c - s*s) relX + 2 s c relZ, 2 s c relX - (c*c - s*s) relZ)]: the
    pointer's direction [(relX, relZ)] reflected in the line through the
    Sun at the Earth's orbit angle, not the pointer's direction itself. *)
Theorem moon_drag_lands_on_reflection
    fuel isMobile state point r orbitDist moonDist :
  let relX := x point - UniverseView.Scene.earthX state isMobile in
  let relZ := z point - UniverseView.Scene.earthZ state isMobile in
  let c := cos (earthOrbitProgress state * PI * 2) in
  let s := sin (earthOrbitProgress state * PI * 2) in
  0 < orbitDist -> 0 < r -> r * r = relX * relX + relZ * relZ ->
  exists s',
    dragUpdate (S fuel) (Some moon) false isMobile state point state
    = Some s' /\
    x (UniverseView.EarthSystem.moonLocal s' orbitDist moonDist) * r
    = ((c * c - s * s) * relX + 2 * s * c * relZ) * moonDist /\
    z (UniverseView.EarthSystem.moonLocal s' orbitDist moonDist) * r
    = (2 * s * c * relX - (c * c - s * s) * relZ) * moonDist.
Proof.
  intros relX relZ c s Hd Hr E. pose proof PI_RGT_0 as Hpi.
  unfold dragUpdate, UniverseView.Scene.handleDragUpdate. cbv zeta.
  fold relX relZ.
  destruct (moon_drag_value fuel relZ relX
              (- UniverseView.Scene.earthZ state isMobile)
              (- UniverseView.Scene.earthX state isMobile))
    as (progress & E1 & E2 & Hp).
  cbv zeta in E1, Hp. rewrite E1, E2.
  eexists; split; [reflexivity|].
  destruct (atan2_direction relZ relX r Hr E) as [Hrc Hrs].
  set (rho := JS.atan2 relZ relX) in *.
  (* the handler's direction from the Earth to the Sun *)
  assert (Ht : cos (JS.atan2 (- UniverseView.Scene.earthZ state isMobile)
                             (- UniverseView.Scene.earthX state isMobile))
               = - c /\
               sin (JS.atan2 (- UniverseView.Scene.earthZ state isMobile)
                             (- UniverseView.Scene.earthX state isMobile))
               = - s).
  { unfold UniverseView.Scene.earthZ, UniverseView.Scene.earthX.
    fold c s.
    assert (HD : 0 < UniverseView.Scene.EARTH_DIST isMobile)
      by (unfold UniverseView.Scene.EARTH_DIST; destruct isMobile; lra).
    replace (- (s * UniverseView.Scene.EARTH_DIST isMobile))
      with (- s * UniverseView.Scene.EARTH_DIST isMobile) by ring.
    replace (- (c * UniverseView.Scene.EARTH_DIST isMobile))
      with (- c * UniverseView.Scene.EARTH_DIST isMobile) by ring.
    rewrite (atan2_scale (- s) (- c) _ HD).
    apply atan2_unit.
    pose proof (sin2_cos2 (earthOrbitProgress state * PI * 2)) as H.
    unfold Rsqr in H. fold c s in H. lra. }
  set (theta := JS.atan2 (- UniverseView.Scene.earthZ state isMobile)
                         (- UniverseView.Scene.earthX state isMobile)) in *.
  destruct Ht as [Htc Hts].
  (* the direction from the Earth to the Sun the scene is drawn with *)
  set (s' := App.onChange (UniverseView.Scene.moonPatch progress) state).
  assert (Ee : earthOrbitProgress s' = earthOrbitProgress state)
    by reflexivity.
  assert (Em : moonOrbitProgress s' = progress) by reflexivity.
  destruct (angleToSun_direction s') as [Hac Has].
  rewrite Ee in Hac, Has. fold c in Hac. fold s in Has.
  unfold UniverseView.EarthSystem.moonLocal,
    UniverseView.EarthSystem.moonAngle.
  cbn [x z]. rewrite angleToSun_scale by assumption. rewrite Em.
  set (a := App.angleToSun s') in *.
  assert (Eq : cos (a + progress * PI * 2) = cos (a + (rho - theta)) /\
               sin (a + progress * PI * 2) = sin (a + (rho - theta))).
  { destruct Hp as [Hp|Hp]; rewrite Hp.
    - replace (a + (rho - theta) / (PI * 2) * PI * 2)
        with (a + (rho - theta)) by (field; lra). auto.
    - replace (a + ((rho - theta) / (PI * 2) + 1) * PI * 2)
        with (a + (rho - theta) + 2 * PI) by (field; lra).
      now rewrite cos_full_turn, sin_full_turn. }
  destruct Eq as [Eqc Eqs]. rewrite Eqc, Eqs.
  rewrite cos_plus, sin_plus, cos_minus, sin_minus, Hac, Has, Htc, Hts.
  rewrite <- Hrc, <- Hrs. split; ring.
Qed.

(** The Earth at progress 0 and the pointer at (350, 0, 110), straight
    "below" the Earth: the Moon is drawn straight "above" it. *)
Lemma moon_drag_lands_on_reflection_witness :
  0 < 350 /\ 0 < 110 /\
  exists s',
    dragUpdate 1 (Some moon) false false App.initialState
      (mkVector3 350 0 110) App.initialState = Some s' /\
    x (UniverseView.EarthSystem.moonLocal s' 350 110) * 110 = 0 /\
    z (UniverseView.EarthSystem.moonLocal s' 350 110) * 110 = - 110 * 110.
Proof.
  assert (H1 : 0 < 350) by lra.
  assert (H2 : 0 < 110) by lra.
  assert (C : cos (earthOrbitProgress App.initialState * PI * 2) = 1).
  { simpl. replace (0 * PI * 2) with 0 by ring. apply cos_0. }
  assert (S0 : sin (earthOrbitProgress App.initialState * PI * 2) = 0).
  { simpl. replace (0 * PI * 2) with 0 by ring. apply sin_0. }
  assert (H3 : 110 * 110
               = (x (mkVector3 350 0 110)
                  - UniverseView.Scene.earthX App.initialState false)
                 * (x (mkVector3 350 0 110)
                    - UniverseView.Scene.earthX App.initialState false)
                 + (z (mkVector3 350 0 110)
                    - UniverseView.Scene.earthZ App.initialState false)
                   * (z (mkVector3 350 0 110)
                      - UniverseView.Scene.earthZ App.initialState false)).
  { unfold UniverseView.Scene.earthX, UniverseView.Scene.earthZ,
      UniverseView.Scene.EARTH_DIST.
    rewrite C, S0. cbn [x z]. ring. }
  split; [exact H1|split; [exact H2|]].
  destruct (moon_drag_lands_on_reflection 0 false App.initialState
              (mkVector3 350 0 110) 110 350 110 H1 H2 H3)
    as (s' & E & Ex & Ez).
  exists s'. split; [exact E|].
  unfold UniverseView.Scene.earthX, UniverseView.Scene.earthZ,
    UniverseView.Scene.EARTH_DIST in Ex, Ez.
  rewrite C, S0 in Ex, Ez. cbn [x z] in Ex, Ez.
  split; [rewrite Ex|rewrite Ez]; ring.
Defined.
